(** * Nodal: the regional van-route decision core

    A shallow embedding of [src/core/optimizer.py] (class [NodalOptimizer])
    and [src/core/routing_engine.py] (class [NodalRouter]), followed by the
    properties the design document states about them.

    Conventions of the embedding:
    - Python floats are idealised as exact rationals ([Q]); equality of
      computed amounts is [Qeq] ([==]).  [round(x, 2)] is rounding to the
      nearest hundredth, ties to even.
    - Python strings are [string]s of 8-bit characters; [str.upper] and
      [str.strip] act on the ASCII letters and the ASCII white space.
    - a DataFrame is the list of its rows, in index order; an empty
      DataFrame is [[]].
    - a method that assigns to [self] takes the object and returns the
      updated object; a call that may raise returns an [outcome]. *)

From Stdlib Require Import QArith Qround Qminmax Lqa.
From Stdlib Require Import List Permutation Sorted Ascii String Lia Bool.
From stdpp Require Import gmap strings.

Import ListNotations.

Local Open Scope Q_scope.

(** ** Python values *)

Module Py.

(** What a Python call does: it returns a value or raises. *)
Inductive exc : Type :=
| KeyError
| IndexError
| OtherError.

Inductive outcome (A : Type) : Type :=
| Returned (a : A)
| Raised (e : exc).
Arguments Returned {A} a.
Arguments Raised {A} e.

Definition bind {A B : Type} (c : outcome A) (k : A -> outcome B) : outcome B :=
  match c with
  | Returned a => k a
  | Raised e => Raised e
  end.

(** [d[key]] on a dict in which the key may be missing. *)
Definition getitem {A : Type} (field : option A) : outcome A :=
  match field with
  | Some a => Returned a
  | None => Raised KeyError
  end.

(** [l[0]] on a list. *)
Definition first {A : Type} (l : list A) : outcome A :=
  match l with
  | a :: _ => Returned a
  | [] => Raised IndexError
  end.

(** [d.get(key, default)]: the default is an argument, hence already
    evaluated when [get] runs. *)
Definition get {A : Type} (field : option A) (default : A) : A :=
  match field with
  | Some a => a
  | None => default
  end.

(** [round(x)] of an exact number: nearest integer, ties to even. *)
Definition round_half_even (x : Q) : Z :=
  let f := Qfloor x in
  match Qcompare (x - inject_Z f) (1 # 2) with
  | Lt => f
  | Gt => (f + 1)%Z
  | Eq => if Z.even f then f else (f + 1)%Z
  end.

(** [round(x, 2)]. *)
Definition round2 (x : Q) : Q :=
  inject_Z (round_half_even (x * 100)) / 100.

(** [a > b] on numbers. *)
Definition gt (a b : Q) : bool := negb (Qle_bool a b).

(** [sum] of a column. *)
Definition sum (l : list Q) : Q := fold_right Qplus 0 l.

(** [max] of a column that has a first entry. *)
Definition max_from (x : Q) (l : list Q) : Q := fold_left Qmax l x.

(** [c.upper()] on one character. *)
Definition upper_ascii (c : ascii) : ascii :=
  let n := nat_of_ascii c in
  if (97 <=? n)%nat && (n <=? 122)%nat then ascii_of_nat (n - 32) else c.

Fixpoint upper (s : string) : string :=
  match s with
  | EmptyString => EmptyString
  | String c s' => String (upper_ascii c) (upper s')
  end.

(** [c.isspace()]: tab, line feed, vertical tab, form feed, carriage
    return, the four separators 28..31, and the space. *)
Definition isspace (c : ascii) : bool :=
  let n := nat_of_ascii c in
  ((9 <=? n)%nat && (n <=? 13)%nat) || ((28 <=? n)%nat && (n <=? 32)%nat).

Fixpoint lstrip (s : string) : string :=
  match s with
  | EmptyString => EmptyString
  | String c s' => if isspace c then lstrip s' else s
  end.

(** [rstrip] keeps a character when it is not white space or when
    something is left after it. *)
Fixpoint rstrip (s : string) : string :=
  match s with
  | EmptyString => EmptyString
  | String c s' =>
      match rstrip s' with
      | EmptyString => if isspace c then EmptyString else String c EmptyString
      | rest => String c rest
      end
  end.

Definition strip (s : string) : string := rstrip (lstrip s).

(** [s.startswith(prefixes)] with a tuple of prefixes. *)
Definition startswith (s : string) (prefixes : list string) : bool :=
  existsb (fun p => String.prefix p s) prefixes.

(** [not s] for a string. *)
Definition falsy (s : string) : bool :=
  match s with
  | EmptyString => true
  | String _ _ => false
  end.

(** The string does not begin with white space. *)
Definition starts_clean (s : string) : Prop :=
  match s with
  | EmptyString => True
  | String c _ => isspace c = false
  end.

End Py.

(** ** [optimizer.py]: class [NodalOptimizer] *)

Module Optimizer.
Import Py.

(** A manifest row after column standardisation.  [postcode] is [None]
    where the cell is missing ([pd.isna]). *)
Record Order : Type := {
  order_id : string;
  courier_cost_gbp : Q;
  postcode : option string;
  weight_kg : Q;
  volume_m3 : Q;
  quantity : Q
}.

(** A row of the frame handed to the selector: the caller has added the
    two route columns and dropped the rows without a distance. *)
Record RoutedOrder : Type := {
  order :> Order;
  distance_miles : Q;
  duration_min : Q
}.

(** A row of the returned frame: the selector adds one column. *)
Record SelectedRow : Type := {
  row :> RoutedOrder;
  final_route_miles : Q
}.

(** The attributes of a [NodalOptimizer] object. *)
Record NodalOptimizer : Type := {
  raw_max_m3 : Q;
  van_capacity_kg : Q;
  UTILIZATION_RATIO : Q;
  van_capacity_m3 : Q;
  DRIVER_DAILY_RATE : Q;
  VEHICLE_INSURANCE_DAILY : Q;
  MAINTENANCE_BUFFER : Q;
  LONDON_SURCHARGE : Q;
  SAFETY_MARGIN : Q;
  current_diesel_price : Q;
  VAN_MPG : Q;
  FUEL_COST_PER_MILE : Q
}.

(** [self.FUEL_COST_PER_MILE = (self.current_diesel_price * 4.546) / self.VAN_MPG] *)
Definition calculate_fuel_per_mile (self : NodalOptimizer) : NodalOptimizer :=
  {| raw_max_m3 := raw_max_m3 self;
     van_capacity_kg := van_capacity_kg self;
     UTILIZATION_RATIO := UTILIZATION_RATIO self;
     van_capacity_m3 := van_capacity_m3 self;
     DRIVER_DAILY_RATE := DRIVER_DAILY_RATE self;
     VEHICLE_INSURANCE_DAILY := VEHICLE_INSURANCE_DAILY self;
     MAINTENANCE_BUFFER := MAINTENANCE_BUFFER self;
     LONDON_SURCHARGE := LONDON_SURCHARGE self;
     SAFETY_MARGIN := SAFETY_MARGIN self;
     current_diesel_price := current_diesel_price self;
     VAN_MPG := VAN_MPG self;
     FUEL_COST_PER_MILE := (current_diesel_price self * (4546 # 1000)) / VAN_MPG self |}.

(** [optimizer.current_diesel_price = price], the assignment [main.py]
    makes. *)
Definition set_current_diesel_price (price : Q) (self : NodalOptimizer) : NodalOptimizer :=
  {| raw_max_m3 := raw_max_m3 self;
     van_capacity_kg := van_capacity_kg self;
     UTILIZATION_RATIO := UTILIZATION_RATIO self;
     van_capacity_m3 := van_capacity_m3 self;
     DRIVER_DAILY_RATE := DRIVER_DAILY_RATE self;
     VEHICLE_INSURANCE_DAILY := VEHICLE_INSURANCE_DAILY self;
     MAINTENANCE_BUFFER := MAINTENANCE_BUFFER self;
     LONDON_SURCHARGE := LONDON_SURCHARGE self;
     SAFETY_MARGIN := SAFETY_MARGIN self;
     current_diesel_price := price;
     VAN_MPG := VAN_MPG self;
     FUEL_COST_PER_MILE := FUEL_COST_PER_MILE self |}.

(** The assignments of [__init__], in order, and its closing call of
    [calculate_fuel_per_mile].  The fuel attribute does not exist before
    that call; the [0] below is overwritten by it. *)
Definition init_body (van_capacity_m3_arg van_capacity_kg_arg : Q) : NodalOptimizer :=
  calculate_fuel_per_mile
    {| raw_max_m3 := van_capacity_m3_arg;
       van_capacity_kg := van_capacity_kg_arg;
       UTILIZATION_RATIO := 80 # 100;
       van_capacity_m3 := van_capacity_m3_arg * (80 # 100);
       DRIVER_DAILY_RATE := 140;
       VEHICLE_INSURANCE_DAILY := 15;
       MAINTENANCE_BUFFER := 10;
       LONDON_SURCHARGE := 15;
       SAFETY_MARGIN := 110 # 100;
       current_diesel_price := 145 # 100;
       VAN_MPG := 30;
       FUEL_COST_PER_MILE := 0 |}.

(** [NodalOptimizer(van_capacity_m3, van_capacity_kg)].  Nothing in the
    body inspects the two arguments and it has no [raise]: the only exit
    is the normal one, with the object built. *)
Definition __init__ (van_capacity_m3_arg van_capacity_kg_arg : Q) : outcome NodalOptimizer :=
  Returned (init_body van_capacity_m3_arg van_capacity_kg_arg).

(** The default arguments: [NodalOptimizer()]. *)
Definition default_van_capacity_m3 : Q := 12.
Definition default_van_capacity_kg : Q := 1500.

(** What the operator typed at the diesel prompt of [main.py]: nothing
    but white space, a text [float] accepts, or a text it rejects. *)
Inductive fuel_input : Type :=
| Blank
| Price (p : Q)
| NotANumber.

(** The "dynamic fuel price" step of [run_nodal_app]: on a price, assign
    it; then recompute the per-mile cost; a [ValueError] from [float]
    leaves the object as it was. *)
Definition enter_diesel_price (typed : fuel_input) (self : NodalOptimizer) : NodalOptimizer :=
  match typed with
  | Blank => calculate_fuel_per_mile self
  | Price p => calculate_fuel_per_mile (set_current_diesel_price p self)
  | NotANumber => self
  end.

Definition london_prefixes : list string :=
  ["EC"; "WC"; "E1"; "N1"; "NW1"; "SE1"; "SW1"; "W1"].

Definition is_london (self : NodalOptimizer) (pc : option string) : bool :=
  match pc with
  | None => false
  | Some s => startswith (strip (upper s)) london_prefixes
  end.

Definition calculate_human_route_miles (self : NodalOptimizer)
    (dist_to_region : Q) (num_stops : nat) : Q :=
  let stem_miles := dist_to_region * 2 in
  let drop_miles := inject_Z (Z.of_nat num_stops) * (12 # 10) in
  round2 (stem_miles + drop_miles).

Definition calculate_van_cost (self : NodalOptimizer)
    (total_miles : Q) (has_london_stop : bool) : Q :=
  let fixed := DRIVER_DAILY_RATE self + VEHICLE_INSURANCE_DAILY self + MAINTENANCE_BUFFER self in
  let fuel := total_miles * FUEL_COST_PER_MILE self in
  let total := fixed + fuel in
  let total := if has_london_stop then total + LONDON_SURCHARGE self else total in
  total * SAFETY_MARGIN self.

(** [df.sort_values(by='courier_cost_gbp', ascending=False)].  The call
    names no [kind], so pandas runs its default, [quicksort]; pandas
    documents only [mergesort] and [stable] as stable.  What every kind
    delivers is the same rows, highest courier cost first; the order
    among rows of equal cost is the kind's own.  A [SortKind] is one such
    sorting routine. *)
Definition costlier_first (a b : RoutedOrder) : Prop :=
  courier_cost_gbp b <= courier_cost_gbp a.

Class SortKind : Type := {
  sort_values : list RoutedOrder -> list RoutedOrder;
  sort_values_rows : forall df, Permutation df (sort_values df);
  sort_values_descending : forall df, StronglySorted costlier_first (sort_values df)
}.

(** The loop variables [selected_orders], [curr_vol], [curr_kg]. *)
Record Load : Type := {
  selected_orders : list RoutedOrder;
  curr_vol : Q;
  curr_kg : Q
}.

Definition empty_load : Load :=
  {| selected_orders := []; curr_vol := 0; curr_kg := 0 |}.

(** The test of the [if] in the loop body. *)
Definition fits (self : NodalOptimizer) (ld : Load) (r : RoutedOrder) : bool :=
  Qle_bool (curr_vol ld + volume_m3 r) (van_capacity_m3 self)
  && Qle_bool (curr_kg ld + weight_kg r) (van_capacity_kg self).

(** One turn of [for index, row in df_sorted.iterrows()]. *)
Definition load_row (self : NodalOptimizer) (ld : Load) (r : RoutedOrder) : Load :=
  if fits self ld r
  then {| selected_orders := selected_orders ld ++ [r];
          curr_vol := curr_vol ld + volume_m3 r;
          curr_kg := curr_kg ld + weight_kg r |}
  else ld.

Definition load_all (self : NodalOptimizer) (df_sorted : list RoutedOrder) : Load :=
  fold_left (load_row self) df_sorted empty_load.

(** [df['distance_miles'].max()] on a frame with a first row. *)
Definition max_distance (r : RoutedOrder) (rest : list RoutedOrder) : Q :=
  max_from (distance_miles r) (map distance_miles rest).

(** [result_df['final_route_miles'] = total_route_miles] *)
Definition with_final_route_miles (miles : Q) (rows : list RoutedOrder) : list SelectedRow :=
  map (fun r => {| row := r; final_route_miles := miles |}) rows.

(** [df] is [None] for Python's [None]. *)
Definition select_best_regional_orders `{SortKind} (self : NodalOptimizer)
    (df : option (list RoutedOrder)) : outcome (list SelectedRow) :=
  match df with
  | None => Returned []
  | Some [] => Returned []
  | Some (r :: rest) =>
      let df_sorted := sort_values (r :: rest) in
      let dist_to_region := max_distance r rest in
      let selected := selected_orders (load_all self df_sorted) in
      match selected with
      | [] => Returned []
      | _ :: _ =>
          let total_route_miles :=
            calculate_human_route_miles self dist_to_region (length selected) in
          let savings := sum (map (fun o : RoutedOrder => courier_cost_gbp o) selected) in
          let has_london := existsb (fun o : RoutedOrder => is_london self (postcode o)) selected in
          let cost := calculate_van_cost self total_route_miles has_london in
          let result_df := with_final_route_miles total_route_miles selected in
          if gt cost savings then Returned [] else Returned result_df
      end
  end.

(** Totals over a list of rows, for stating what the selector
    guarantees. *)
Definition total_volume (rows : list RoutedOrder) : Q :=
  sum (map (fun o : RoutedOrder => volume_m3 o) rows).

Definition total_weight (rows : list RoutedOrder) : Q :=
  sum (map (fun o : RoutedOrder => weight_kg o) rows).

Definition total_courier_cost (rows : list RoutedOrder) : Q :=
  sum (map (fun o : RoutedOrder => courier_cost_gbp o) rows).

Definition any_london (self : NodalOptimizer) (rows : list RoutedOrder) : bool :=
  existsb (fun o : RoutedOrder => is_london self (postcode o)) rows.

(** The running totals are the totals of the rows selected so far. *)
Definition totals_agree (ld : Load) : Prop :=
  curr_vol ld == total_volume (selected_orders ld)
  /\ curr_kg ld == total_weight (selected_orders ld).

(** The rows together are within the two limits of the van. *)
Definition within_budget (self : NodalOptimizer) (rows : list RoutedOrder) : Prop :=
  total_volume rows <= van_capacity_m3 self
  /\ total_weight rows <= van_capacity_kg self.

(** The per-mile fuel cost is the one of the current diesel price. *)
Definition fuel_cost_current (self : NodalOptimizer) : Prop :=
  FUEL_COST_PER_MILE self = (current_diesel_price self * (4546 # 1000)) / VAN_MPG self.

(** The diesel prompt touches the price and the per-mile cost only. *)
Definition same_constants (a b : NodalOptimizer) : Prop :=
  DRIVER_DAILY_RATE a = DRIVER_DAILY_RATE b
  /\ VEHICLE_INSURANCE_DAILY a = VEHICLE_INSURANCE_DAILY b
  /\ MAINTENANCE_BUFFER a = MAINTENANCE_BUFFER b
  /\ LONDON_SURCHARGE a = LONDON_SURCHARGE b
  /\ SAFETY_MARGIN a = SAFETY_MARGIN b
  /\ VAN_MPG a = VAN_MPG b.

(** The object after a run of entries at the diesel prompt. *)
Definition enter_diesel_prices (typed : list fuel_input) (self : NodalOptimizer)
    : NodalOptimizer :=
  fold_left (fun s t => enter_diesel_price t s) typed self.

(** No entry at the diesel prompt sets a negative price. *)
Definition no_negative_price (typed : list fuel_input) : Prop :=
  Forall (fun t => match t with Price p => 0 <= p | Blank | NotANumber => True end) typed.

(** What the constructor sets and the diesel prompt keeps, when no
    negative price is entered. *)
Definition priced (self : NodalOptimizer) : Prop :=
  fuel_cost_current self
  /\ 0 <= current_diesel_price self
  /\ same_constants self (init_body 0 0).

(** No row has a negative volume or a negative weight. *)
Definition sizes_not_negative (rows : list RoutedOrder) : Prop :=
  Forall (fun o : RoutedOrder => 0 <= volume_m3 o /\ 0 <= weight_kg o) rows.

(** No two rows have the same courier cost. *)
Definition costs_differ (rows : list RoutedOrder) : Prop :=
  ForallOrdPairs (fun a b : RoutedOrder => ~ courier_cost_gbp a == courier_cost_gbp b) rows.

(** The rows the loop of the selector admits for a frame. *)
Definition admitted `{SortKind} (self : NodalOptimizer) (df : list RoutedOrder)
    : list RoutedOrder :=
  selected_orders (load_all self (sort_values df)).

(** A line of [data/nodal_history.csv]: the header, or the record of a
    day with its eight cells. *)
Record HistoryRecord : Type := {
  Date : string;
  Total_Orders : nat;
  Selected_Orders : nat;
  Nodal_Cost : Q;
  Courier_Saving : Q;
  Net_Profit : Q;
  Status : string;
  Notes : string
}.

Inductive HistoryLine : Type :=
| HeaderLine
| RecordLine (record : HistoryRecord).

(** The row [log_daily_results] writes.  [today] is
    [datetime.now().strftime("%Y-%m-%d")]. *)
Definition daily_record (self : NodalOptimizer) (today : string)
    (total_orders_count : nat) (selected_df : list SelectedRow) (total_miles : Q)
    (status note : string) : HistoryRecord :=
  let empty := match selected_df with [] => true | _ :: _ => false end in
  let courier_saving :=
    if empty then 0
    else round2 (sum (map (fun o : SelectedRow => courier_cost_gbp o) selected_df)) in
  let nodal_cost :=
    if String.eqb status "USED" && negb empty
    then
      let has_lon := existsb (fun o : SelectedRow => is_london self (postcode o)) selected_df in
      round2 (calculate_van_cost self total_miles has_lon)
    else 0 in
  let profit := round2 (courier_saving - nodal_cost) in
  {| Date := today;
     Total_Orders := total_orders_count;
     Selected_Orders := length selected_df;
     Nodal_Cost := nodal_cost;
     Courier_Saving := courier_saving;
     Net_Profit := profit;
     Status := status;
     Notes := note |}.

(** [log_daily_results(total_orders_count, selected_df, total_miles, status,
    note)]: the lines of the history file afterwards.  [log_file] is the
    file before, [None] when there is none; the file is opened for
    appending, and the header is written when [os.path.isfile] said there
    was no file. *)
Definition log_daily_results (self : NodalOptimizer) (log_file : option (list HistoryLine))
    (today : string) (total_orders_count : nat) (selected_df : list SelectedRow)
    (total_miles : Q) (status note : string) : list HistoryLine :=
  let record :=
    daily_record self today total_orders_count selected_df total_miles status note in
  match log_file with
  | None => [HeaderLine; RecordLine record]
  | Some lines => lines ++ [RecordLine record]
  end.

End Optimizer.

(** ** [routing_engine.py]: class [NodalRouter] *)

Module Router.
Import Py.

(** The dict [{'distance_miles': ..., 'duration_min': ...}]. *)
Record RouteInfo : Type := {
  distance_miles : Q;
  duration_min : Q
}.

(** The backend's answer, as far as the code reads it.  A field is
    [None] where the key is missing, so that reading it raises. *)
Record Measure : Type := {
  value : option Q
}.

Record Element : Type := {
  element_status : option string;
  distance : option Measure;
  duration : option Measure;
  duration_in_traffic : option Measure
}.

Record MatrixRow : Type := {
  elements : option (list Element)
}.

Record Matrix : Type := {
  status : option string;
  rows : option (list MatrixRow)
}.

(** [self.gmaps.distance_matrix(...)] returns a dict or raises.  The
    backend is outside the program: a client is any function from the
    destinations asked so far and the destination asked now to what
    happens. *)
Definition Client : Type := list string -> string -> outcome Matrix.

(** The attributes of a [NodalRouter] object, and the trace [asked] of
    the destinations sent to the backend, oldest first (not an attribute:
    it records the calls of [distance_matrix]). *)
Record NodalRouter : Type := {
  gmaps : Client;
  warehouse_postcode : string;
  route_cache : gmap string RouteInfo;
  daily_request_count : nat;
  MAX_DAILY_LIMIT : nat;
  asked : list string
}.

Definition __init__ (client : Client) : NodalRouter :=
  {| gmaps := client;
     warehouse_postcode := "NN15 6NL";
     route_cache := ∅;
     daily_request_count := 0;
     MAX_DAILY_LIMIT := 3000;
     asked := [] |}.

(** [self.daily_request_count += 1] *)
Definition count_request (self : NodalRouter) : NodalRouter :=
  {| gmaps := gmaps self;
     warehouse_postcode := warehouse_postcode self;
     route_cache := route_cache self;
     daily_request_count := S (daily_request_count self);
     MAX_DAILY_LIMIT := MAX_DAILY_LIMIT self;
     asked := asked self |}.

(** The call of [distance_matrix] for [pc_key], seen from the trace. *)
Definition record_call (pc_key : string) (self : NodalRouter) : NodalRouter :=
  {| gmaps := gmaps self;
     warehouse_postcode := warehouse_postcode self;
     route_cache := route_cache self;
     daily_request_count := daily_request_count self;
     MAX_DAILY_LIMIT := MAX_DAILY_LIMIT self;
     asked := asked self ++ [pc_key] |}.

(** [self.route_cache[pc_key] = route_info] *)
Definition save_to_cache (pc_key : string) (route_info : RouteInfo)
    (self : NodalRouter) : NodalRouter :=
  {| gmaps := gmaps self;
     warehouse_postcode := warehouse_postcode self;
     route_cache := <[pc_key := route_info]> (route_cache self);
     daily_request_count := daily_request_count self;
     MAX_DAILY_LIMIT := MAX_DAILY_LIMIT self;
     asked := asked self |}.

(** [status == 'OK'] *)
Definition is_OK (s : string) : bool := String.eqb s "OK".

(** The statements of the [try] block after the backend call, up to its
    [return]s: [Returned (Some route_info)] is [return route_info] (the
    cache is written by the caller of this function, just before),
    [Returned None] is the [return None] that ends the block, and
    [Raised] is an exception on the way. *)
Definition read_result (result : Matrix) : outcome (option RouteInfo) :=
  bind (getitem (status result)) (fun st =>
  if is_OK st then
    bind (getitem (rows result)) (fun rs =>
    bind (first rs) (fun r0 =>
    bind (getitem (elements r0)) (fun es =>
    bind (first es) (fun element =>
    bind (getitem (element_status element)) (fun est =>
    if is_OK est then
      bind (getitem (distance element)) (fun d =>
      bind (getitem (value d)) (fun dist_meters =>
      let distance_miles := round2 (dist_meters * (621371 # 1000000000)) in
      bind (getitem (duration element)) (fun default =>
      bind (getitem (value (get (duration_in_traffic element) default))) (fun duration_sec =>
      let duration_min := round2 (duration_sec / 60) in
      Returned (Some {| distance_miles := distance_miles;
                        duration_min := duration_min |})))))
    else Returned None)))))
  else Returned None).

(** What the [try] block comes to for a destination: the backend call,
    then the reading of its answer. *)
Definition attempt (self : NodalRouter) (pc_key : string) : outcome (option RouteInfo) :=
  bind (gmaps self (asked self) pc_key) read_result.

(** [str(destination_postcode).upper().strip()] *)
Definition pc_key_of (destination_postcode : string) : string :=
  strip (upper destination_postcode).

(** [get_route_data(destination_postcode)]: the returned value ([None]
    for Python's [None]) and the object afterwards.  The argument is
    [None] for Python's [None]. *)
Definition get_route_data (self : NodalRouter) (destination_postcode : option string)
    : option RouteInfo * NodalRouter :=
  match destination_postcode with
  | None => (None, self)
  | Some s =>
      if falsy s then (None, self)
      else
        let pc_key := pc_key_of s in
        match route_cache self !! pc_key with
        | Some cached => (Some cached, self)
        | None =>
            if (MAX_DAILY_LIMIT self <=? daily_request_count self)%nat
            then (None, self)
            else
              let self1 := count_request self in
              let self2 := record_call pc_key self1 in
              match attempt self pc_key with
              | Returned (Some route_info) =>
                  (Some route_info, save_to_cache pc_key route_info self2)
              | Returned None => (None, self2)
              | Raised _ => (None, self2)
              end
        end
  end.

(** A run of calls, one after the other on the same object: the values
    returned, in order, and the object at the end. *)
Fixpoint get_route_data_each (self : NodalRouter) (postcodes : list (option string))
    : list (option RouteInfo) * NodalRouter :=
  match postcodes with
  | [] => ([], self)
  | pc :: later =>
      let (data, self1) := get_route_data self pc in
      let (datas, self2) := get_route_data_each self1 later in
      (data :: datas, self2)
  end.

(** The number of backend calls between two moments of an object. *)
Definition backend_calls (before after : NodalRouter) : nat :=
  length (asked after) - length (asked before).

(** A whole number of hundredths. *)
Definition in_hundredths (x : Q) : Prop := exists k : Z, x * 100 == inject_Z k.

(** Every cached distance is a whole number of hundredths of a mile. *)
Definition cache_in_hundredths (self : NodalRouter) : Prop :=
  forall key route_info,
    route_cache self !! key = Some route_info ->
    in_hundredths (distance_miles route_info).

(** What one call does to the cache and to the trace: the cache keeps all
    it had, and the backend is asked for nothing that was cached. *)
Definition cache_kept (before after : NodalRouter) : Prop :=
  route_cache before ⊆ route_cache after
  /\ exists extra,
       asked after = asked before ++ extra
       /\ Forall (fun key => route_cache before !! key = None) extra.

(** Every key of the cache is a postcode key. *)
Definition keys_normal (self : NodalRouter) : Prop :=
  forall key route_info,
    route_cache self !! key = Some route_info -> pc_key_of key = key.

(** The element the code reads: [result['rows'][0]['elements'][0]]. *)
Definition first_element (result : Matrix) : outcome Element :=
  bind (getitem (rows result)) (fun rs =>
  bind (first rs) (fun r0 =>
  bind (getitem (elements r0)) (fun es =>
  first es))).

(** Both statuses are ['OK'] and the first element has a distance with
    its value: all the code asks of an answer before it turns to the
    durations. *)
Definition measured (result : Matrix) (element : Element) (dist_meters : Q) : Prop :=
  status result = Some "OK"%string
  /\ first_element result = Returned element
  /\ element_status element = Some "OK"%string
  /\ exists d, distance element = Some d /\ value d = Some dist_meters.

(** The route data made of a distance in metres and a time in seconds. *)
Definition route_info_of (dist_meters duration_sec : Q) : RouteInfo :=
  {| distance_miles := round2 (dist_meters * (621371 # 1000000000));
     duration_min := round2 (duration_sec / 60) |}.

(** The five ways through [get_route_data]: no postcode, a cached one,
    the quota used up, a lookup that succeeds, a lookup that fails. *)
Inductive way (self : NodalRouter) (pc : option string)
    : option RouteInfo -> NodalRouter -> Prop :=
| way_missing :
    pc = None \/ pc = Some EmptyString ->
    way self pc None self
| way_cached (s : string) (cached : RouteInfo) :
    pc = Some s -> s <> EmptyString ->
    route_cache self !! pc_key_of s = Some cached ->
    way self pc (Some cached) self
| way_exhausted (s : string) :
    pc = Some s -> s <> EmptyString ->
    route_cache self !! pc_key_of s = None ->
    (MAX_DAILY_LIMIT self <= daily_request_count self)%nat ->
    way self pc None self
| way_fetched (s : string) (route_info : RouteInfo) :
    pc = Some s -> s <> EmptyString ->
    route_cache self !! pc_key_of s = None ->
    (daily_request_count self < MAX_DAILY_LIMIT self)%nat ->
    attempt self (pc_key_of s) = Returned (Some route_info) ->
    way self pc (Some route_info)
      (save_to_cache (pc_key_of s) route_info
         (record_call (pc_key_of s) (count_request self)))
| way_failed (s : string) :
    pc = Some s -> s <> EmptyString ->
    route_cache self !! pc_key_of s = None ->
    (daily_request_count self < MAX_DAILY_LIMIT self)%nat ->
    (forall route_info, attempt self (pc_key_of s) <> Returned (Some route_info)) ->
    way self pc None (record_call (pc_key_of s) (count_request self)).

End Router.

(** ** [core.py]: class [NodalCore] *)

Module Core.
Import Py Optimizer.

(** The attributes of a [NodalCore] object.  [manifest] stands for the
    processor: what [load_file()] followed by [standardize_columns()]
    delivers, [None] when the file does not load or there is nothing to
    standardise.  The pool carries no column [region_code]: the column is
    a function of the postcode column and is computed where the code
    reads it. *)
Record NodalCore : Type := {
  manifest : option (list Order);
  optimizer : NodalOptimizer;
  router : Router.NodalRouter;
  all_data_cached : option (list Order);
  DAILY_POOL_LIMIT : nat
}.

(** [NodalCore(api_key, file_path)]: the optimizer is [NodalOptimizer()],
    with its default capacities. *)
Definition __init__ (client : Router.Client) (file : option (list Order)) : NodalCore :=
  {| manifest := file;
     optimizer := init_body default_van_capacity_m3 default_van_capacity_kg;
     router := Router.__init__ client;
     all_data_cached := None;
     DAILY_POOL_LIMIT := 400 |}.

Definition set_all_data_cached (pool : list Order) (self : NodalCore) : NodalCore :=
  {| manifest := manifest self;
     optimizer := optimizer self;
     router := router self;
     all_data_cached := Some pool;
     DAILY_POOL_LIMIT := DAILY_POOL_LIMIT self |}.

Definition set_router (r : Router.NodalRouter) (self : NodalCore) : NodalCore :=
  {| manifest := manifest self;
     optimizer := optimizer self;
     router := r;
     all_data_cached := all_data_cached self;
     DAILY_POOL_LIMIT := DAILY_POOL_LIMIT self |}.

(** A capital letter, [[A-Z]]. *)
Definition is_capital (c : ascii) : bool :=
  let n := nat_of_ascii c in (65 <=? n)%nat && (n <=? 90)%nat.

(** [.str.extract(r'^([A-Z]{1,2})')] on one postcode: its one or two
    leading capitals, two if there are two; [None] (no match) when it does
    not begin with a capital. *)
Definition region_code_of (pc : string) : option string :=
  match pc with
  | String a rest =>
      if is_capital a then
        match rest with
        | String b _ =>
            if is_capital b then Some (String a (String b EmptyString))
            else Some (String a EmptyString)
        | EmptyString => Some (String a EmptyString)
        end
      else None
  | EmptyString => None
  end.

(** [region_code == region_prefix] on a row; a row without postcode has
    no region code. *)
Definition in_region (region_prefix : string) (o : Order) : bool :=
  match postcode o with
  | Some pc =>
      match region_code_of pc with
      | Some code => String.eqb code region_prefix
      | None => false
      end
  | None => false
  end.

(** The assignment [get_top_regions] makes to the object: the first
    [DAILY_POOL_LIMIT] rows of the manifest become the pool; nothing is
    assigned when there is no manifest.  (The table of regions it returns
    is for display; [execute_regional_analysis] discards it.) *)
Definition scan_pool (self : NodalCore) : NodalCore :=
  match manifest self with
  | None => self
  | Some df => set_all_data_cached (take (DAILY_POOL_LIMIT self) df) self
  end.

(** [.unique()]: each value once, in order of first appearance. *)
Fixpoint unique (seen : list string) (l : list string) : list string :=
  match l with
  | [] => []
  | x :: rest =>
      if existsb (String.eqb x) seen then unique seen rest
      else x :: unique (x :: seen) rest
  end.

(** The postcodes of a frame whose rows all have one. *)
Definition postcodes (rows : list Order) : list string := omap postcode rows.

(** The loop over [unique_pcs]: the router afterwards and the two maps
    [dist_map] and [dur_map], which are filled together, as one map from
    the postcode to the pair. *)
Fixpoint fetch_all (r : Router.NodalRouter) (route_map : gmap string Router.RouteInfo)
    (unique_pcs : list string) : Router.NodalRouter * gmap string Router.RouteInfo :=
  match unique_pcs with
  | [] => (r, route_map)
  | pc :: later =>
      let (data, r1) := Router.get_route_data r (Some pc) in
      match data with
      | Some info => fetch_all r1 (<[pc := info]> route_map) later
      | None => fetch_all r1 route_map later
      end
  end.

(** [.map(dist_map)], [.map(dur_map)] and [dropna(subset=['distance_miles'])]
    on one row. *)
Definition routed (route_map : gmap string Router.RouteInfo) (o : Order)
    : option RoutedOrder :=
  match postcode o with
  | Some pc =>
      match route_map !! pc with
      | Some info =>
          Some {| order := o;
                  distance_miles := Router.distance_miles info;
                  duration_min := Router.duration_min info |}
      | None => None
      end
  | None => None
  end.

(** [execute_regional_analysis(region_prefix, api_limit)]: what the call
    returns (the pair of the frame, [None] for Python's [None], and the
    pool limit) or raises, and the object afterwards.  Subscripting the
    pool when it is still [None] raises. *)
Definition execute_regional_analysis `{SortKind} (self : NodalCore)
    (region_prefix : string) (api_limit : nat)
    : outcome (option (list SelectedRow) * nat) * NodalCore :=
  let self1 :=
    match all_data_cached self with
    | None => scan_pool self
    | Some _ => self
    end in
  match all_data_cached self1 with
  | None => (Raised OtherError, self1)
  | Some pool =>
      let regional_df := List.filter (in_region region_prefix) pool in
      match regional_df with
      | [] => (Returned (None, DAILY_POOL_LIMIT self1), self1)
      | _ :: _ =>
          let unique_pcs := take api_limit (unique [] (postcodes regional_df)) in
          let (r1, route_map) := fetch_all (router self1) ∅ unique_pcs in
          let self2 := set_router r1 self1 in
          let df_ready := omap (routed route_map) regional_df in
          match df_ready with
          | [] => (Returned (Some [], DAILY_POOL_LIMIT self2), self2)
          | _ :: _ =>
              (bind (select_best_regional_orders (optimizer self2) (Some df_ready))
                 (fun selected_orders =>
                    Returned (Some selected_orders, DAILY_POOL_LIMIT self2)),
               self2)
          end
      end
  end.

(** The pool the analysis works on: the one already scanned, or else the
    one a scan gives. *)
Definition pool_for_analysis (self : NodalCore) : option (list Order) :=
  match all_data_cached self with
  | Some pool => Some pool
  | None => all_data_cached (scan_pool self)
  end.

End Core.

(** ** [main.py]: the report of [run_nodal_app] *)

Module Main.
Import Py Optimizer.

(** The figures of the operational plan, and the two tests on them: the
    profit line is the green one when [net_profit > 0], and the warning
    on driving hours is printed when [est_drive_time_hours > 9]. *)
Record Report : Type := {
  est_courier_saving : Q;
  est_van_miles : Q;
  est_drive_time_hours : Q;
  has_london : bool;
  total_van_cost : Q;
  net_profit : Q;
  in_profit : bool;
  hours_warning : bool
}.

(** Step 4 of [run_nodal_app] on the frame the analysis returned: [None]
    when the app stops at "no profitable route" ([best_orders] is [None]
    or empty), the figures otherwise. *)
Definition report (self : NodalOptimizer) (best_orders : option (list SelectedRow))
    : option Report :=
  match best_orders with
  | None => None
  | Some [] => None
  | Some (first_row :: others) =>
      let rows := first_row :: others in
      let saving := sum (map (fun o : SelectedRow => courier_cost_gbp o) rows) in
      let miles := final_route_miles first_row in
      let hours := miles / 25 + inject_Z (Z.of_nat (length rows)) * (5 # 100) in
      let london := existsb (fun o : SelectedRow => is_london self (postcode o)) rows in
      let cost := calculate_van_cost self miles london in
      let profit := saving - cost in
      Some {| est_courier_saving := saving;
              est_van_miles := miles;
              est_drive_time_hours := hours;
              has_london := london;
              total_van_cost := cost;
              net_profit := profit;
              in_profit := gt profit 0;
              hours_warning := gt hours 9 |}
  end.

End Main.

(** ** Sorting routines

  Two routines that sort a frame by courier cost, highest first.  They
  differ only on rows of equal cost: [mergesort] keeps them in the order
  of the frame, as pandas' [kind='mergesort'] and [kind='stable'] do;
  [ties_last_first] puts the later row first. *)

Module Kinds.
Import Optimizer.

(** [x] goes in front of the first row that does not cost more. *)
Fixpoint insert_row (x : RoutedOrder) (sorted : list RoutedOrder) : list RoutedOrder :=
  match sorted with
  | [] => [x]
  | y :: rest =>
      if Qle_bool (courier_cost_gbp y) (courier_cost_gbp x)
      then x :: y :: rest
      else y :: insert_row x rest
  end.

Definition mergesort (df : list RoutedOrder) : list RoutedOrder :=
  fold_right insert_row [] df.

Definition ties_last_first (df : list RoutedOrder) : list RoutedOrder :=
  mergesort (rev df).

(** The rows of a frame that cost [c], in the order of the frame. *)
Definition rows_costing (c : Q) (df : list RoutedOrder) : list RoutedOrder :=
  List.filter (fun r : RoutedOrder => Qeq_bool (courier_cost_gbp r) c) df.

(** A sorted frame keeps ties in input order when, for every cost, the
    rows of that cost come in the order they had. *)
Definition keeps_tie_order (df sorted : list RoutedOrder) : Prop :=
  forall c, rows_costing c sorted = rows_costing c df.

End Kinds.

(** ** Sample data

    A van with the limits of the design document's scenario (volume
    1.5 m3 after the utilisation ratio, payload 1500 kg), a van built with
    a negative volume, and a few routed orders. *)

Module Examples.
Import Py Optimizer.

Definition small_van : NodalOptimizer := init_body (1875 # 1000) 1500.

Definition negative_van : NodalOptimizer := init_body (-12) 1500.

Definition parcel (id : string) (cost : Q) (pc : string) (dist : Q) : RoutedOrder :=
  {| order := {| order_id := id; courier_cost_gbp := cost; postcode := Some pc;
                 weight_kg := 50; volume_m3 := 1; quantity := 1 |};
     distance_miles := dist;
     duration_min := 45 |}.

Definition parcel_a : RoutedOrder := parcel "A" 500 "NW1 4RY" (10123 # 1000).
Definition parcel_b : RoutedOrder := parcel "B" 500 "NW1 8QS" 10.
Definition parcel_c : RoutedOrder := parcel "C" 30 "nn15 6xr" (25 # 10).

(** A backend that is down, and one that answers every destination with
    16093 metres and 1500 seconds (1800 in traffic). *)
Definition backend_down : Router.Client := fun _ _ => Raised OtherError.

Definition ten_miles : Router.Matrix :=
  {| Router.status := Some "OK";
     Router.rows := Some [ {| Router.elements := Some [
       {| Router.element_status := Some "OK";
          Router.distance := Some {| Router.value := Some 16093 |};
          Router.duration := Some {| Router.value := Some 1500 |};
          Router.duration_in_traffic := Some {| Router.value := Some 1800 |} |} ] |} ] |}.

Definition backend_up : Router.Client := fun _ _ => Returned ten_miles.

(** An answer with a time in traffic only, and a backend that gives it. *)
Definition no_duration : Router.Matrix :=
  {| Router.status := Some "OK";
     Router.rows := Some [ {| Router.elements := Some [
       {| Router.element_status := Some "OK";
          Router.distance := Some {| Router.value := Some 16093 |};
          Router.duration := None;
          Router.duration_in_traffic := Some {| Router.value := Some 1800 |} |} ] |} ] |}.

Definition backend_no_duration : Router.Client := fun _ _ => Returned no_duration.

(** A router that has used up its quota, with one postcode in its cache. *)
Definition exhausted_router : Router.NodalRouter :=
  {| Router.gmaps := backend_up;
     Router.warehouse_postcode := "NN15 6NL";
     Router.route_cache :=
       {[ "B37 7GT" := {| Router.distance_miles := 52; Router.duration_min := 70 |} ]};
     Router.daily_request_count := 3000;
     Router.MAX_DAILY_LIMIT := 3000;
     Router.asked := [] |}.

(** A core over a manifest of three orders, two of them in region NW. *)
Definition small_core (client : Router.Client) : Core.NodalCore :=
  Core.__init__ client (Some [order parcel_a; order parcel_c; order parcel_b]).

(** Ninety-two small parcels for one street. *)
Definition small_parcel : RoutedOrder :=
  {| order := {| order_id := "S"; courier_cost_gbp := 50; postcode := Some "NN1 1AA";
                 weight_kg := 10; volume_m3 := 1 # 10; quantity := 1 |};
     distance_miles := 15;
     duration_min := 30 |}.

Definition full_round : list RoutedOrder := repeat small_parcel 92.

End Examples.

(** * Properties *)

Import Py.

(** ** Numbers *)

Section Numbers.

Lemma sum_app (l1 l2 : list Q) : sum (l1 ++ l2) == sum l1 + sum l2.
Proof.
  induction l1 as [|x l1 IH]; simpl.
  - ring.
  - rewrite IH. ring.
Qed.

Lemma gt_false_le (a b : Q) : gt a b = false <-> a <= b.
Proof.
  unfold gt. rewrite negb_false_iff. apply Qle_bool_iff.
Qed.

Lemma gt_true_lt (a b : Q) : gt a b = true <-> b < a.
Proof.
  unfold gt. rewrite negb_true_iff. split.
  - intros H. apply Qnot_le_lt. intros Hle.
    apply Qle_bool_iff in Hle. congruence.
  - intros H. destruct (Qle_bool a b) eqn:E; [|reflexivity].
    apply Qle_bool_iff in E. lra.
Qed.

(** Rounding an integer to the nearest integer gives it back. *)
Lemma round_half_even_Z (k : Z) : round_half_even (inject_Z k) = k.
Proof.
  unfold round_half_even. rewrite Qfloor_Z.
  assert (E : Qcompare (inject_Z k - inject_Z k) (1 # 2) = Lt).
  { assert (Z0 : inject_Z k - inject_Z k == 0) by ring.
    rewrite Z0. reflexivity. }
  now rewrite E.
Qed.

Lemma round_half_even_comp (x y : Q) : x == y -> round_half_even x = round_half_even y.
Proof.
  intros E. unfold round_half_even.
  assert (F : Qfloor x = Qfloor y) by now rewrite E.
  rewrite F.
  assert (C : Qcompare (x - inject_Z (Qfloor y)) (1 # 2)
              = Qcompare (y - inject_Z (Qfloor y)) (1 # 2))
    by now rewrite E.
  now rewrite C.
Qed.

(** A number of whole hundredths is its own [round(_, 2)]. *)
Lemma round2_hundredths (x : Q) (k : Z) : x * 100 == inject_Z k -> round2 x == x.
Proof.
  intros E. unfold round2.
  rewrite (round_half_even_comp _ _ E), round_half_even_Z.
  rewrite <- E. field.
Qed.

(** [round(_, 2)] always yields whole hundredths. *)
Lemma round2_is_hundredths (x : Q) : exists k : Z, round2 x * 100 == inject_Z k.
Proof.
  exists (round_half_even (x * 100)). unfold round2. field.
Qed.

Lemma max_from_ge_start (l : list Q) (x : Q) : x <= max_from x l.
Proof.
  unfold max_from. revert x.
  induction l as [|y l IH]; intros x; simpl.
  - lra.
  - eapply Qle_trans; [|apply IH]. apply Q.le_max_l.
Qed.

Lemma max_from_upper (l : list Q) (x : Q) : Forall (fun y => y <= max_from x l) l.
Proof.
  unfold max_from. revert x.
  induction l as [|y l IH]; intros x; simpl; constructor.
  - eapply Qle_trans; [|apply (max_from_ge_start l)]. apply Q.le_max_r.
  - apply IH.
Qed.

Lemma max_from_attained (l : list Q) (x : Q) :
  max_from x l == x \/ Exists (fun y => max_from x l == y) l.
Proof.
  unfold max_from. revert x.
  induction l as [|y l IH]; intros x; simpl.
  - left. reflexivity.
  - destruct (IH (Qmax x y)) as [E | E].
    + destruct (Q.max_dec x y) as [M | M].
      * left. now rewrite E, M.
      * right. left. now rewrite E, M.
    + right. right. exact E.
Qed.

End Numbers.

(** ** The sorting routines sort *)

Section Sorting.
Import Optimizer Kinds.

Lemma insert_row_perm (x : RoutedOrder) (s : list RoutedOrder) :
  Permutation (x :: s) (insert_row x s).
Proof.
  induction s as [|y s IH]; simpl.
  - reflexivity.
  - destruct (Qle_bool (courier_cost_gbp y) (courier_cost_gbp x)).
    + reflexivity.
    + rewrite perm_swap. now apply perm_skip.
Qed.

Lemma insert_row_sorted (x : RoutedOrder) (s : list RoutedOrder) :
  StronglySorted costlier_first s -> StronglySorted costlier_first (insert_row x s).
Proof.
  induction s as [|y s IH]; intros Hs; simpl.
  - repeat constructor.
  - apply StronglySorted_inv in Hs as [Hs Hy].
    destruct (Qle_bool (courier_cost_gbp y) (courier_cost_gbp x)) eqn:E.
    + apply Qle_bool_iff in E.
      constructor; [now constructor|].
      constructor; [exact E|].
      eapply List.Forall_impl; [|exact Hy].
      unfold costlier_first. intros z Hz. lra.
    + assert (Hlt : courier_cost_gbp x < courier_cost_gbp y).
      { apply Qnot_le_lt. intros Hle. apply Qle_bool_iff in Hle. congruence. }
      constructor; [now apply IH|].
      eapply Permutation_Forall; [apply insert_row_perm|].
      constructor; [|exact Hy].
      unfold costlier_first. lra.
Qed.

Lemma mergesort_perm (df : list RoutedOrder) : Permutation df (mergesort df).
Proof.
  induction df as [|x df IH]; simpl.
  - reflexivity.
  - rewrite <- insert_row_perm. now apply perm_skip.
Qed.

Lemma mergesort_sorted (df : list RoutedOrder) :
  StronglySorted costlier_first (mergesort df).
Proof.
  induction df as [|x df IH]; simpl.
  - constructor.
  - now apply insert_row_sorted.
Qed.

Lemma ties_last_first_perm (df : list RoutedOrder) :
  Permutation df (ties_last_first df).
Proof.
  unfold ties_last_first. rewrite <- mergesort_perm. apply Permutation_rev.
Qed.

Lemma ties_last_first_sorted (df : list RoutedOrder) :
  StronglySorted costlier_first (ties_last_first df).
Proof. apply mergesort_sorted. Qed.

(** Inserting a row leaves the rows of every cost in their order and
    puts the new row in front of those of its own cost. *)
Lemma rows_costing_insert_row (c : Q) (x : RoutedOrder) (s : list RoutedOrder) :
  rows_costing c (insert_row x s) = rows_costing c (x :: s).
Proof.
  unfold rows_costing. induction s as [|y s IH]; simpl.
  - reflexivity.
  - destruct (Qle_bool (courier_cost_gbp y) (courier_cost_gbp x)) eqn:E.
    + reflexivity.
    + assert (Hlt : courier_cost_gbp x < courier_cost_gbp y).
      { apply Qnot_le_lt. intros Hle. apply Qle_bool_iff in Hle. congruence. }
      simpl. rewrite IH. simpl.
      destruct (Qeq_bool (courier_cost_gbp y) c) eqn:Ey;
        destruct (Qeq_bool (courier_cost_gbp x) c) eqn:Ex; try reflexivity.
      apply Qeq_bool_iff in Ey, Ex. lra.
Qed.

Lemma mergesort_keeps_tie_order (df : list RoutedOrder) :
  keeps_tie_order df (mergesort df).
Proof.
  intros c. induction df as [|x df IH]; simpl.
  - reflexivity.
  - rewrite rows_costing_insert_row. unfold rows_costing in *. simpl.
    now rewrite IH.
Qed.

Lemma rows_costing_cheaper (c : Q) (l : list RoutedOrder) :
  Forall (fun r : RoutedOrder => courier_cost_gbp r < c) l -> rows_costing c l = [].
Proof.
  induction 1 as [|r l Hr _ IH]; simpl.
  - reflexivity.
  - destruct (Qeq_bool (courier_cost_gbp r) c) eqn:E.
    + apply Qeq_bool_iff in E. lra.
    + exact IH.
Qed.

Lemma rows_costing_head (r : RoutedOrder) (l : list RoutedOrder) :
  rows_costing (courier_cost_gbp r) (r :: l) = r :: rows_costing (courier_cost_gbp r) l.
Proof.
  simpl. now rewrite Qeq_bool_refl.
Qed.

(** A frame has one sorted arrangement that keeps ties in order. *)
Lemma sorted_ties_unique (l1 l2 : list RoutedOrder) :
  StronglySorted costlier_first l1 ->
  StronglySorted costlier_first l2 ->
  (forall c, rows_costing c l1 = rows_costing c l2) ->
  l1 = l2.
Proof.
  revert l2. induction l1 as [|x l1 IH]; intros l2 S1 S2 R.
  - destruct l2 as [|y l2]; [reflexivity|].
    specialize (R (courier_cost_gbp y)). rewrite rows_costing_head in R.
    discriminate R.
  - destruct l2 as [|y l2].
    { specialize (R (courier_cost_gbp x)). rewrite rows_costing_head in R.
      discriminate R. }
    apply StronglySorted_inv in S1 as [S1 H1].
    apply StronglySorted_inv in S2 as [S2 H2].
    assert (Exy : x = y).
    { destruct (Q_dec (courier_cost_gbp x) (courier_cost_gbp y)) as [[Lt | Gt] | Eq].
      - pose proof (R (courier_cost_gbp y)) as Ry.
        rewrite rows_costing_head in Ry.
        rewrite rows_costing_cheaper in Ry; [discriminate Ry|].
        constructor; [exact Lt|].
        eapply List.Forall_impl; [|exact H1]. unfold costlier_first. intros z Hz. lra.
      - pose proof (R (courier_cost_gbp x)) as Rx.
        rewrite rows_costing_head in Rx.
        rewrite (rows_costing_cheaper _ (y :: l2)) in Rx; [discriminate Rx|].
        constructor; [exact Gt|].
        eapply List.Forall_impl; [|exact H2]. unfold costlier_first. intros z Hz. lra.
      - pose proof (R (courier_cost_gbp x)) as Rx.
        rewrite rows_costing_head in Rx. simpl in Rx.
        assert (B : Qeq_bool (courier_cost_gbp y) (courier_cost_gbp x) = true).
        { apply Qeq_bool_iff. now symmetry. }
        rewrite B in Rx. now injection Rx. }
    subst y. f_equal. apply IH; [exact S1 | exact S2 |].
    intros c. specialize (R c). simpl in R.
    destruct (Qeq_bool (courier_cost_gbp x) c); [now injection R | exact R].
Qed.

(** [kind='mergesort'] *)
#[local] Instance stable_kind : SortKind :=
  {| sort_values := mergesort;
     sort_values_rows := mergesort_perm;
     sort_values_descending := mergesort_sorted |}.

(** A kind that is not stable. *)
#[local] Instance unstable_kind : SortKind :=
  {| sort_values := ties_last_first;
     sort_values_rows := ties_last_first_perm;
     sort_values_descending := ties_last_first_sorted |}.

End Sorting.

(** ** The loading loop *)

Section Loading.
Import Optimizer.

Variable self : NodalOptimizer.

#[local] Abbreviation within_budget := (Optimizer.within_budget self).

Lemma total_volume_snoc (rows : list RoutedOrder) (r : RoutedOrder) :
  total_volume (rows ++ [r]) == total_volume rows + volume_m3 r.
Proof.
  unfold total_volume. rewrite map_app, sum_app. simpl. ring.
Qed.

Lemma total_weight_snoc (rows : list RoutedOrder) (r : RoutedOrder) :
  total_weight (rows ++ [r]) == total_weight rows + weight_kg r.
Proof.
  unfold total_weight. rewrite map_app, sum_app. simpl. ring.
Qed.

Lemma fits_iff (ld : Load) (r : RoutedOrder) :
  totals_agree ld ->
  fits self ld r = true <-> within_budget (selected_orders ld ++ [r]).
Proof.
  intros [Hv Hk]. unfold fits, within_budget.
  rewrite andb_true_iff, !Qle_bool_iff.
  rewrite total_volume_snoc, total_weight_snoc, Hv, Hk. reflexivity.
Qed.

Lemma load_row_totals (ld : Load) (r : RoutedOrder) :
  totals_agree ld -> totals_agree (load_row self ld r).
Proof.
  intros [Hv Hk]. unfold load_row.
  destruct (fits self ld r); [|now split].
  split; simpl.
  - now rewrite total_volume_snoc, Hv.
  - now rewrite total_weight_snoc, Hk.
Qed.

Lemma load_rows_totals (rows : list RoutedOrder) (ld : Load) :
  totals_agree ld -> totals_agree (fold_left (load_row self) rows ld).
Proof.
  revert ld. induction rows as [|r rows IH]; intros ld H; simpl.
  - exact H.
  - apply IH. now apply load_row_totals.
Qed.

Lemma empty_load_totals : totals_agree empty_load.
Proof. split; reflexivity. Qed.

Lemma load_all_totals (rows : list RoutedOrder) : totals_agree (load_all self rows).
Proof. apply load_rows_totals, empty_load_totals. Qed.

Lemma load_all_snoc (pre : list RoutedOrder) (r : RoutedOrder) :
  load_all self (pre ++ [r]) = load_row self (load_all self pre) r.
Proof. unfold load_all. now rewrite fold_left_app. Qed.

(** The loop only appends, and only rows it is iterating over. *)
Lemma load_rows_extends (rows : list RoutedOrder) (ld : Load) :
  exists later,
    selected_orders (fold_left (load_row self) rows ld) = selected_orders ld ++ later
    /\ incl later rows.
Proof.
  revert ld. induction rows as [|r rows IH]; intros ld; simpl.
  - exists []. split; [now rewrite app_nil_r | easy].
  - destruct (IH (load_row self ld r)) as (later & E & I). rewrite E.
    unfold load_row. destruct (fits self ld r).
    + exists (r :: later). simpl. rewrite <- app_assoc.
      split; [reflexivity|].
      intros z [-> | Hz]; [now left | right; now apply I].
    + exists later. split; [reflexivity|].
      intros z Hz. right. now apply I.
Qed.

Lemma load_all_incl (rows : list RoutedOrder) :
  incl (selected_orders (load_all self rows)) rows.
Proof.
  destruct (load_rows_extends rows empty_load) as (later & E & I).
  unfold load_all. now rewrite E.
Qed.

(** Whatever has been selected fits, as soon as something has been. *)
Lemma load_rows_within (rows : list RoutedOrder) (ld : Load) :
  totals_agree ld ->
  (selected_orders ld = [] \/ within_budget (selected_orders ld)) ->
  let ld' := fold_left (load_row self) rows ld in
  selected_orders ld' = [] \/ within_budget (selected_orders ld').
Proof.
  revert ld. induction rows as [|r rows IH]; intros ld T H; simpl.
  - exact H.
  - apply IH; [now apply load_row_totals|].
    unfold load_row. destruct (fits self ld r) eqn:F; [|exact H].
    right. simpl. now apply fits_iff.
Qed.

Lemma load_all_within (rows : list RoutedOrder) :
  selected_orders (load_all self rows) = []
  \/ within_budget (selected_orders (load_all self rows)).
Proof.
  apply load_rows_within; [apply empty_load_totals | now left].
Qed.

Lemma nothing_within :
  0 <= van_capacity_m3 self -> 0 <= van_capacity_kg self -> within_budget [].
Proof. intros Hv Hk. split; assumption. Qed.

End Loading.

(** ** The selector *)

Section Selecting.
Import Optimizer.

Context `{K : SortKind}.
Variable self : NodalOptimizer.

Lemma map_row_with_final_route_miles (miles : Q) (rows : list RoutedOrder) :
  map row (with_final_route_miles miles rows) = rows.
Proof.
  unfold with_final_route_miles. rewrite map_map. simpl. apply map_id.
Qed.

Lemma with_final_route_miles_column (miles : Q) (rows : list RoutedOrder) :
  Forall (fun sr => final_route_miles sr = miles) (with_final_route_miles miles rows).
Proof.
  unfold with_final_route_miles. apply List.Forall_forall.
  intros sr Hsr. apply in_map_iff in Hsr as (r & <- & _). reflexivity.
Qed.

Lemma with_final_route_miles_length (miles : Q) (rows : list RoutedOrder) :
  length (with_final_route_miles miles rows) = length rows.
Proof. apply length_map. Qed.

(** The three ways out of the selector on a frame with rows. *)
Lemma select_frame (r : RoutedOrder) (rest : list RoutedOrder) :
  let adm := admitted self (r :: rest) in
  let miles := calculate_human_route_miles self (max_distance r rest) (length adm) in
  let cost := calculate_van_cost self miles (any_london self adm) in
  select_best_regional_orders self (Some (r :: rest))
  = Returned (if gt cost (total_courier_cost adm) then []
              else with_final_route_miles miles adm).
Proof.
  unfold select_best_regional_orders, admitted, any_london, total_courier_cost.
  destruct (selected_orders (load_all self (sort_values (r :: rest)))) as [|a adm].
  - simpl. now destruct (gt _ _).
  - cbv zeta. now destruct (gt _ _).
Qed.

(** On every frame the selector returns, and what it returns is nothing
    or the admitted rows, all of them, with the mileage column. *)
Lemma select_returns (df : option (list RoutedOrder)) :
  exists result,
    select_best_regional_orders self df = Returned result
    /\ (result = []
        \/ exists r rest,
             df = Some (r :: rest)
             /\ result <> []
             /\ map row result = admitted self (r :: rest)).
Proof.
  destruct df as [[|r rest]|].
  - exists []. split; [reflexivity | now left].
  - rewrite select_frame.
    destruct (gt _ _).
    + exists []. split; [reflexivity | now left].
    + eexists. split; [reflexivity|].
      destruct (admitted self (r :: rest)) as [|a adm] eqn:E.
      * now left.
      * right. exists r, rest. rewrite E.
        split; [reflexivity|]. split; [discriminate|].
        apply map_row_with_final_route_miles.
  - exists []. split; [reflexivity | now left].
Qed.

Lemma admitted_in_frame (df : list RoutedOrder) (r : RoutedOrder) :
  In r (admitted self df) -> In r df.
Proof.
  intros Hin. apply load_all_incl in Hin.
  eapply Permutation_in; [symmetry; apply sort_values_rows | exact Hin].
Qed.

(** Without any assumption on the limits: a load that is not empty is
    within them. *)
Lemma admitted_within (df : list RoutedOrder) :
  admitted self df <> [] -> within_budget self (admitted self df).
Proof.
  intros Hne. destruct (load_all_within self (sort_values df)) as [E | W].
  - contradiction.
  - exact W.
Qed.

End Selecting.

(** ** What the selector guarantees *)

Section SelectorClaims.
Import Optimizer Kinds Examples.





Lemma max_distance_upper (r : RoutedOrder) (rest : list RoutedOrder) :
  Forall (fun c : RoutedOrder => distance_miles c <= max_distance r rest) (r :: rest).
Proof.
  unfold max_distance. constructor.
  - apply max_from_ge_start.
  - pose proof (max_from_upper (map distance_miles rest) (distance_miles r)) as U.
    apply List.Forall_forall. intros c Hc.
    rewrite List.Forall_forall in U. apply U. now apply in_map.
Qed.

Lemma max_distance_attained (r : RoutedOrder) (rest : list RoutedOrder) :
  Exists (fun c : RoutedOrder => max_distance r rest == distance_miles c) (r :: rest).
Proof.
  unfold max_distance.
  destruct (max_from_attained (map distance_miles rest) (distance_miles r)) as [E | E].
  - now left.
  - right. apply List.Exists_exists in E as (d & Hd & Ed).
    apply in_map_iff in Hd as (c & <- & Hc).
    apply List.Exists_exists. now exists c.
Qed.

Lemma stem_and_drops_hundredths (anchor : Q) (k : Z) (stops : nat) :
  anchor * 100 == inject_Z k ->
  (anchor * 2 + inject_Z (Z.of_nat stops) * (12 # 10)) * 100
  == inject_Z (2 * k + 120 * Z.of_nat stops).
Proof.
  intros E. rewrite inject_Z_plus, !inject_Z_mult, <- E. ring.
Qed.




End SelectorClaims.

(** ** The order among candidates of equal cost *)

Section TieOrder.
Import Optimizer Kinds Examples.

(** The selector reads the sorting routine only through the sorted frame. *)
Lemma select_same_sorted (K K' : SortKind) (self : NodalOptimizer) (df : list RoutedOrder) :
  @sort_values K' df = @sort_values K df ->
  @select_best_regional_orders K' self (Some df)
  = @select_best_regional_orders K self (Some df).
Proof.
  intros E. destruct df as [|r rest]; [reflexivity|].
  unfold select_best_regional_orders. now rewrite E.
Qed.




End TieOrder.

(** ** Construction, and business outcomes *)

Section Outcomes.
Import Optimizer Kinds Examples.

(** With a negative volume limit no row of non-negative volume is ever
    loaded. *)
Lemma negative_limit_loads_nothing (self : NodalOptimizer) (rows : list RoutedOrder) :
  van_capacity_m3 self < 0 ->
  Forall (fun o : RoutedOrder => 0 <= volume_m3 o) rows ->
  load_all self rows = empty_load.
Proof.
  intros Hneg Hrows. unfold load_all.
  induction Hrows as [|o rows Ho _ IH]; simpl.
  - reflexivity.
  - unfold load_row at 2.
    assert (F : fits self empty_load o = false).
    { unfold fits. apply andb_false_iff. left.
      destruct (Qle_bool _ _) eqn:E; [|reflexivity].
      apply Qle_bool_iff in E. simpl in E. lra. }
    rewrite F. exact IH.
Qed.

(** The two rejections of the selector. *)
Lemma select_rejects (K : SortKind) (self : NodalOptimizer)
    (df : option (list RoutedOrder)) :
  exists result,
    select_best_regional_orders self df = Returned result
    /\ (forall rows, df = Some rows -> admitted self rows = [] -> result = [])
    /\ (forall r rest,
          df = Some (r :: rest) ->
          let adm := admitted self (r :: rest) in
          let miles := calculate_human_route_miles self (max_distance r rest) (length adm) in
          total_courier_cost adm < calculate_van_cost self miles (any_london self adm) ->
          result = []).
Proof.
  destruct df as [[|r rest]|].
  - exists []. repeat split; reflexivity.
  - rewrite select_frame.
    destruct (gt _ _) eqn:G.
    + exists []. repeat split; reflexivity.
    + eexists. split; [reflexivity|]. split.
      * intros rows E Hnil. injection E as <-. now rewrite Hnil.
      * intros r' rest' E. injection E as <- <-. intros adm miles Hlt.
        apply gt_false_le in G. exfalso. exact (Qlt_not_le _ _ Hlt G).
  - exists []. repeat split; reflexivity.
Qed.

(** C9, as the code has it (no exception for outcomes, none at
    construction either).  The constructor returns an object for every
    pair of capacities, with the volume limit at 0.8 times the volume
    given and the weight limit as given; the selector returns a frame for
    every object and every input, the empty frame when nothing fits the
    van and when the van costs more than the couriers; a van built with a
    negative volume is one in which no candidate of non-negative volume
    fits, so that the selector returns the empty frame for it. *)
Theorem outcomes_never_raise (K : SortKind) (m3 kg : Q) (self : NodalOptimizer)
    (df : option (list RoutedOrder)) :
  (exists built,
      __init__ m3 kg = Returned built
      /\ van_capacity_m3 built == m3 * (8 # 10)
      /\ van_capacity_kg built = kg)
  /\ exists result,
       select_best_regional_orders self df = Returned result
       /\ (forall rows, df = Some rows -> admitted self rows = [] -> result = [])
       /\ (forall r rest,
             df = Some (r :: rest) ->
             let adm := admitted self (r :: rest) in
             let miles := calculate_human_route_miles self (max_distance r rest) (length adm) in
             total_courier_cost adm < calculate_van_cost self miles (any_london self adm) ->
             result = [])
       /\ (forall rows,
             df = Some rows ->
             van_capacity_m3 self < 0 ->
             Forall (fun o : RoutedOrder => 0 <= volume_m3 o) rows ->
             result = []).
Proof.
  split.
  - eexists. split; [reflexivity|]. split; [|reflexivity]. simpl. ring.
  - destruct (select_rejects K self df) as (result & Hsel & Hnone & Hloss).
    exists result. split; [exact Hsel|]. split; [exact Hnone|]. split; [exact Hloss|].
    intros rows Hdf Hneg Hvol. apply (Hnone rows Hdf).
    unfold admitted. rewrite negative_limit_loads_nothing; [reflexivity | exact Hneg |].
    eapply Permutation_Forall; [apply sort_values_rows | exact Hvol].
Qed.

Lemma outcomes_never_raise_witness :
  exists result,
    @select_best_regional_orders stable_kind negative_van (Some [parcel_a; parcel_c])
    = Returned result
    /\ result = [].
Proof.
  destruct (outcomes_never_raise stable_kind (-12) 1500 negative_van
              (Some [parcel_a; parcel_c])) as (_ & result & Hsel & _ & _ & Hneg).
  exists result. split; [exact Hsel|].
  apply (Hneg [parcel_a; parcel_c]).
  - reflexivity.
  - vm_compute. reflexivity.
  - repeat constructor; vm_compute; discriminate.
Defined.

(** C9, as stated, fails: the constructor does not signal a negative
    capacity.  Called with a volume of -12 it returns an object, whose
    volume limit is -9.6. *)
Lemma negative_capacity_accepted :
  __init__ (-12) 1500 = Returned negative_van
  /\ van_capacity_m3 negative_van == - (96 # 10)
  /\ forall e, __init__ (-12) 1500 <> Raised e.
Proof.
  split; [reflexivity|]. split; [vm_compute; reflexivity|].
  intros e. discriminate.
Qed.

End Outcomes.

(** ** The cost model *)

Section CostModel.
Import Optimizer.

Lemma calculate_fuel_per_mile_current (self : NodalOptimizer) :
  fuel_cost_current (calculate_fuel_per_mile self).
Proof. reflexivity. Qed.

Lemma init_body_current (m3 kg : Q) : fuel_cost_current (init_body m3 kg).
Proof. apply calculate_fuel_per_mile_current. Qed.

Lemma enter_diesel_price_current (typed : fuel_input) (self : NodalOptimizer) :
  fuel_cost_current self -> fuel_cost_current (enter_diesel_price typed self).
Proof.
  intros H. destruct typed; simpl.
  - apply calculate_fuel_per_mile_current.
  - apply calculate_fuel_per_mile_current.
  - exact H.
Qed.

Lemma enter_diesel_price_constants (typed : fuel_input) (self : NodalOptimizer) :
  same_constants (enter_diesel_price typed self) self.
Proof. destruct typed; repeat split. Qed.

Lemma enter_diesel_prices_keep (typed : list fuel_input) (self : NodalOptimizer) :
  fuel_cost_current self ->
  fuel_cost_current (enter_diesel_prices typed self)
  /\ same_constants (enter_diesel_prices typed self) self.
Proof.
  unfold enter_diesel_prices. revert self.
  induction typed as [|t typed IH]; intros self H; simpl.
  - repeat split; assumption.
  - destruct (IH (enter_diesel_price t self)) as (Hc & Hk).
    + now apply enter_diesel_price_current.
    + split; [exact Hc|].
      pose proof (enter_diesel_price_constants t self) as Hs.
      unfold same_constants in *. intuition congruence.
Qed.

(** C3 (cost model).  For every van built by the constructor, after any
    run of entries at the diesel prompt, and for every mileage and London
    flag: the van cost is
    [(fixed + total_miles * fuel_per_mile + surcharge) * safety_margin],
    with [fixed] the sum of driver rate, insurance and maintenance buffer
    (165), [fuel_per_mile] the current diesel price times 4.546 over the
    miles per gallon (30), the surcharge 15 if the flag is set and nothing
    otherwise, and the safety margin 1.10, which is above 1.  Entering a
    price makes it the current price.  The value is a function of the
    object's attributes and the two arguments; the object is not
    changed (the function returns a number only). *)
Theorem van_cost_formula (m3 kg : Q) (typed : list fuel_input)
    (total_miles : Q) (has_london_stop : bool) :
  exists built,
    __init__ m3 kg = Returned built
    /\ let self := enter_diesel_prices typed built in
       let fixed_cost :=
         DRIVER_DAILY_RATE self + VEHICLE_INSURANCE_DAILY self + MAINTENANCE_BUFFER self in
       let fuel_per_mile := (current_diesel_price self * (4546 # 1000)) / VAN_MPG self in
       let surcharge := if has_london_stop then LONDON_SURCHARGE self else 0 in
       calculate_van_cost self total_miles has_london_stop
       == (fixed_cost + total_miles * fuel_per_mile + surcharge) * SAFETY_MARGIN self
       /\ fixed_cost == 165
       /\ VAN_MPG self == 30
       /\ LONDON_SURCHARGE self == 15
       /\ SAFETY_MARGIN self == 110 # 100
       /\ 1 < SAFETY_MARGIN self
       /\ forall p, current_diesel_price (enter_diesel_price (Price p) self) = p.
Proof.
  exists (init_body m3 kg). split; [reflexivity|].
  destruct (enter_diesel_prices_keep typed (init_body m3 kg) (init_body_current m3 kg))
    as (Hfuel & Hd & Hi & Hm & Hl & Hs & Hv).
  cbv zeta.
  set (self := enter_diesel_prices typed (init_body m3 kg)) in *.
  repeat split.
  - unfold calculate_van_cost. rewrite Hfuel.
    destruct has_london_stop; ring.
  - rewrite Hd, Hi, Hm. reflexivity.
  - rewrite Hv. reflexivity.
  - rewrite Hl. reflexivity.
  - rewrite Hs. reflexivity.
  - rewrite Hs. reflexivity.
Qed.

End CostModel.

(** ** The route data provider *)

Section Routing.
Import Router Examples.

Lemma falsy_empty (s : string) : falsy s = true <-> s = EmptyString.
Proof. destruct s; simpl; split; congruence. Qed.

Lemma get_route_data_missing (self : NodalRouter) :
  get_route_data self None = (None, self)
  /\ get_route_data self (Some EmptyString) = (None, self).
Proof. split; reflexivity. Qed.

Lemma get_route_data_cached (self : NodalRouter) (s : string) (cached : RouteInfo) :
  s <> EmptyString ->
  route_cache self !! pc_key_of s = Some cached ->
  get_route_data self (Some s) = (Some cached, self).
Proof.
  intros Hs Hc. unfold get_route_data.
  destruct (falsy s) eqn:F; [apply falsy_empty in F; contradiction|].
  now rewrite Hc.
Qed.

Lemma get_route_data_exhausted (self : NodalRouter) (s : string) :
  route_cache self !! pc_key_of s = None ->
  (MAX_DAILY_LIMIT self <= daily_request_count self)%nat ->
  get_route_data self (Some s) = (None, self).
Proof.
  intros Hc Hq. unfold get_route_data.
  destruct (falsy s); [reflexivity|].
  rewrite Hc. apply Nat.leb_le in Hq. now rewrite Hq.
Qed.

Lemma get_route_data_fetched (self : NodalRouter) (s : string) (route_info : RouteInfo) :
  s <> EmptyString ->
  route_cache self !! pc_key_of s = None ->
  (daily_request_count self < MAX_DAILY_LIMIT self)%nat ->
  attempt self (pc_key_of s) = Returned (Some route_info) ->
  get_route_data self (Some s)
  = (Some route_info,
     save_to_cache (pc_key_of s) route_info
       (record_call (pc_key_of s) (count_request self))).
Proof.
  intros Hs Hc Hq Ha. unfold get_route_data, attempt in *.
  destruct (falsy s) eqn:F; [apply falsy_empty in F; contradiction|].
  rewrite Hc. apply Nat.leb_gt in Hq. now rewrite Hq, Ha.
Qed.

Lemma get_route_data_failed (self : NodalRouter) (s : string) :
  s <> EmptyString ->
  route_cache self !! pc_key_of s = None ->
  (daily_request_count self < MAX_DAILY_LIMIT self)%nat ->
  (forall route_info, attempt self (pc_key_of s) <> Returned (Some route_info)) ->
  get_route_data self (Some s)
  = (None, record_call (pc_key_of s) (count_request self)).
Proof.
  intros Hs Hc Hq Ha. unfold get_route_data, attempt in *.
  destruct (falsy s) eqn:F; [apply falsy_empty in F; contradiction|].
  rewrite Hc. apply Nat.leb_gt in Hq. rewrite Hq.
  destruct (bind _ read_result) as [[route_info|]|e]; try reflexivity.
  now destruct (Ha route_info).
Qed.

Lemma get_route_data_way (self : NodalRouter) (pc : option string) :
  way self pc (fst (get_route_data self pc)) (snd (get_route_data self pc)).
Proof.
  destruct pc as [s|]; [|constructor; now left].
  destruct (string_dec s EmptyString) as [-> | Hs]; [constructor; now right|].
  destruct (route_cache self !! pc_key_of s) as [cached|] eqn:Hc.
  - rewrite (get_route_data_cached self s cached Hs Hc). now eapply way_cached.
  - destruct (Nat.le_gt_cases (MAX_DAILY_LIMIT self) (daily_request_count self)) as [Hq | Hq].
    + rewrite (get_route_data_exhausted self s Hc Hq). now eapply way_exhausted.
    + destruct (attempt self (pc_key_of s)) as [[route_info|]|e] eqn:Ha.
      * rewrite (get_route_data_fetched self s route_info Hs Hc Hq Ha).
        now eapply way_fetched.
      * rewrite (get_route_data_failed self s Hs Hc Hq);
          [|intros ri; rewrite Ha; discriminate].
        eapply way_failed; eauto. intros ri. rewrite Ha. discriminate.
      * rewrite (get_route_data_failed self s Hs Hc Hq);
          [|intros ri; rewrite Ha; discriminate].
        eapply way_failed; eauto. intros ri. rewrite Ha. discriminate.
Qed.

(** One call asks the backend at most once, counts exactly what it asks,
    and asks only below the limit. *)
Lemma way_counts (self : NodalRouter) (pc : option string)
    (data : option RouteInfo) (self1 : NodalRouter) :
  way self pc data self1 ->
  MAX_DAILY_LIMIT self1 = MAX_DAILY_LIMIT self
  /\ exists extra,
       asked self1 = asked self ++ extra
       /\ daily_request_count self1 = (daily_request_count self + length extra)%nat
       /\ (length extra <= 1)%nat
       /\ (extra = [] \/ (daily_request_count self1 <= MAX_DAILY_LIMIT self)%nat).
Proof.
  intros W. destruct W as [ | s cached | s | s route_info _ _ _ Hq _ | s _ _ _ Hq _ ];
    (split; [reflexivity|]).
  1-3: exists []; rewrite app_nil_r; simpl; repeat split; auto with arith.
  all: exists [pc_key_of s]; simpl; repeat split; auto with arith; try lia.
Qed.

(** A run of calls asks the backend only while the count is below the
    limit, and the count grows by what is asked. *)
Lemma get_route_data_each_counts (postcodes : list (option string)) (self : NodalRouter) :
  let after := snd (get_route_data_each self postcodes) in
  MAX_DAILY_LIMIT after = MAX_DAILY_LIMIT self
  /\ exists extra,
       asked after = asked self ++ extra
       /\ daily_request_count after = (daily_request_count self + length extra)%nat
       /\ (extra = [] \/ (daily_request_count after <= MAX_DAILY_LIMIT self)%nat).
Proof.
  revert self. induction postcodes as [|pc later IH]; intros self; simpl.
  - split; [reflexivity|]. exists []. rewrite app_nil_r. simpl.
    repeat split; auto with arith.
  - pose proof (get_route_data_way self pc) as W.
    destruct (get_route_data self pc) as [data self1]. simpl in W.
    apply way_counts in W as (M1 & extra1 & A1 & C1 & L1 & Q1).
    specialize (IH self1).
    destruct (get_route_data_each self1 later) as [datas self2]. simpl in *.
    destruct IH as (M2 & extra2 & A2 & C2 & Q2).
    split; [congruence|].
    exists (extra1 ++ extra2). rewrite A2, A1, C2, C1, length_app, <- app_assoc.
    repeat split; [lia|].
    destruct Q2 as [-> | Q2].
    + rewrite app_nil_r. destruct Q1 as [-> | Q1]; [now left | right].
      simpl in *. lia.
    + right. rewrite M1 in Q2. lia.
Qed.

(** C6 (quota).  In every run of calls on a router, the number of
    backend calls is at most the daily maximum less the count at the
    start.  Once the count has reached the maximum, a call for a postcode
    whose key is not in the cache returns nothing and leaves the router as
    it was (no backend call, same count, same cache), and a call for a
    postcode whose key is in the cache returns the cached data. *)
Theorem quota_bounds_backend_calls (self : NodalRouter) (postcodes : list (option string)) :
  (backend_calls self (snd (get_route_data_each self postcodes))
   <= MAX_DAILY_LIMIT self - daily_request_count self)%nat
  /\ ((MAX_DAILY_LIMIT self <= daily_request_count self)%nat ->
      forall pc : string,
        (route_cache self !! pc_key_of pc = None ->
         get_route_data self (Some pc) = (None, self))
        /\ (forall cached,
              pc <> EmptyString ->
              route_cache self !! pc_key_of pc = Some cached ->
              get_route_data self (Some pc) = (Some cached, self))).
Proof.
  split.
  - destruct (get_route_data_each_counts postcodes self) as (_ & extra & A & C & Q).
    unfold backend_calls. rewrite A, length_app.
    destruct Q as [-> | Q]; simpl; lia.
  - intros Hq pc. split.
    + intros Hc. now apply get_route_data_exhausted.
    + intros cached Hs Hc. now apply get_route_data_cached.
Qed.

Lemma quota_bounds_backend_calls_witness :
  get_route_data exhausted_router (Some "W1A 1AA"%string) = (None, exhausted_router)
  /\ get_route_data exhausted_router (Some " b37 7gt "%string)
     = (Some {| distance_miles := 52; duration_min := 70 |}, exhausted_router).
Proof.
  destruct (quota_bounds_backend_calls exhausted_router []) as (_ & Hfull).
  split.
  - apply Hfull; [vm_compute; lia | reflexivity].
  - apply Hfull; [vm_compute; lia | discriminate | reflexivity].
Defined.

(** C7 (idempotence).  When a call for a postcode returns route data,
    the next call for it, or for any other non-empty spelling with the
    same key (upper case, trimmed), returns the same data and leaves the
    router as it is: no backend call, no count.  Over the two calls the
    count has grown by one at most, and by exactly one when the key was
    not cached before the first. *)
Theorem resolve_idempotent (self self1 : NodalRouter) (pc pc' : string)
    (route_info : RouteInfo) :
  get_route_data self (Some pc) = (Some route_info, self1) ->
  pc' <> EmptyString ->
  pc_key_of pc' = pc_key_of pc ->
  get_route_data self1 (Some pc') = (Some route_info, self1)
  /\ (daily_request_count self1 <= S (daily_request_count self))%nat
  /\ (backend_calls self self1 <= 1)%nat
  /\ (route_cache self !! pc_key_of pc = None ->
      daily_request_count self1 = S (daily_request_count self)).
Proof.
  intros Hcall Hs' Hkey.
  pose proof (get_route_data_way self (Some pc)) as W.
  rewrite Hcall in W. simpl in W.
  assert (Hcached : route_cache self1 !! pc_key_of pc' = Some route_info).
  { rewrite Hkey.
    inversion W as [ | s cached E _ Hc | | s ri E _ _ _ _ | ]; subst.
    - injection E as <-. exact Hc.
    - injection E as <-. simpl. apply lookup_insert_eq. }
  split; [now apply get_route_data_cached|].
  inversion W as [ | s cached E _ Hc | | s ri E _ _ _ _ | ]; subst;
    injection E as <-; unfold backend_calls; simpl.
  - repeat split; [lia | lia |]. intros Hnone. congruence.
  - rewrite length_app. simpl. repeat split; lia.
Qed.

Lemma resolve_idempotent_witness :
  let fresh := __init__ backend_up in
  let first_call := get_route_data fresh (Some "b37 7gt"%string) in
  get_route_data (snd first_call) (Some " B37 7GT"%string)
  = (fst first_call, snd first_call)
  /\ daily_request_count (snd first_call) = 1%nat.
Proof.
  intros fresh first_call.
  destruct (resolve_idempotent fresh (snd first_call) "b37 7gt" " B37 7GT"
              {| distance_miles := 1000 # 100; duration_min := 3000 # 100 |})
    as (Hsame & _ & _ & Hone).
  - vm_compute. reflexivity.
  - discriminate.
  - reflexivity.
  - split; [exact Hsame | apply Hone; reflexivity].
Defined.

Lemma is_OK_eq (s : string) : is_OK s = true -> s = "OK"%string.
Proof. unfold is_OK. apply String.eqb_eq. Qed.

(** What an answer must hold for route data to come out of it: both
    statuses ['OK'], a first element in the first row, a distance with
    its value, a [duration] entry, and a value in [duration_in_traffic]
    when that entry is there, in [duration] otherwise. *)
Lemma read_result_success (result : Matrix) (route_info : RouteInfo) :
  read_result result = Returned (Some route_info) ->
  status result = Some "OK"%string
  /\ exists r0 rs element es d dist_meters default duration_sec,
       rows result = Some (r0 :: rs)
       /\ elements r0 = Some (element :: es)
       /\ element_status element = Some "OK"%string
       /\ distance element = Some d
       /\ value d = Some dist_meters
       /\ duration element = Some default
       /\ value (get (duration_in_traffic element) default) = Some duration_sec
       /\ route_info = {| distance_miles := round2 (dist_meters * (621371 # 1000000000));
                          duration_min := round2 (duration_sec / 60) |}.
Proof.
  unfold read_result. intros H.
  destruct (status result) as [st|] eqn:E1; [|discriminate H]. simpl in H.
  destruct (is_OK st) eqn:Est; [|discriminate H]. apply is_OK_eq in Est as ->.
  destruct (rows result) as [[|r0 rs]|] eqn:E2; try discriminate H. simpl in H.
  destruct (elements r0) as [[|element es]|] eqn:E3; try discriminate H. simpl in H.
  destruct (element_status element) as [est|] eqn:E4; [|discriminate H]. simpl in H.
  destruct (is_OK est) eqn:Eest; [|discriminate H]. apply is_OK_eq in Eest as ->.
  destruct (distance element) as [d|] eqn:E5; [|discriminate H]. simpl in H.
  destruct (value d) as [dist_meters|] eqn:E6; [|discriminate H]. simpl in H.
  destruct (duration element) as [default|] eqn:E7; [|discriminate H]. simpl in H.
  destruct (value (get (duration_in_traffic element) default)) as [duration_sec|] eqn:Ev;
    [|discriminate H].
  simpl in H. injection H as <-.
  split; [reflexivity|].
  exists r0, rs, element, es, d, dist_meters, default, duration_sec.
  repeat split; assumption || reflexivity.
Qed.

(** A backend call that raises yields no route data. *)
Lemma attempt_raised (self : NodalRouter) (pc_key : string) (e : exc) :
  gmaps self (asked self) pc_key = Raised e ->
  forall route_info, attempt self pc_key <> Returned (Some route_info).
Proof. intros H route_info. unfold attempt. rewrite H. discriminate. Qed.

(** C8 (failures are not cached).  A call that returns nothing leaves
    the cache as it was; the cache changes at a key only in a call that
    returns route data, read from the backend's answer for that key and
    stored under it.  In particular, when the key is not cached, the quota
    is not used up and the backend raises or its answer yields no route
    data, the call returns nothing and the router differs from before
    only by the count, one higher, and by the backend call made. *)
Theorem failed_lookup_not_cached (self self1 : NodalRouter) (pc : option string)
    (data : option RouteInfo) :
  get_route_data self pc = (data, self1) ->
  (data = None -> route_cache self1 = route_cache self)
  /\ (forall key,
        route_cache self1 !! key <> route_cache self !! key ->
        exists s route_info,
          pc = Some s /\ key = pc_key_of s /\ data = Some route_info
          /\ attempt self key = Returned (Some route_info)
          /\ route_cache self1 !! key = Some route_info)
  /\ (forall s,
        pc = Some s ->
        s <> EmptyString ->
        route_cache self !! pc_key_of s = None ->
        (daily_request_count self < MAX_DAILY_LIMIT self)%nat ->
        (forall route_info, attempt self (pc_key_of s) <> Returned (Some route_info)) ->
        data = None
        /\ self1 = record_call (pc_key_of s) (count_request self)
        /\ route_cache self1 = route_cache self
        /\ daily_request_count self1 = S (daily_request_count self)).
Proof.
  intros Hcall.
  pose proof (get_route_data_way self pc) as W. rewrite Hcall in W. simpl in W.
  split; [|split].
  - intros ->. inversion W; subst; reflexivity.
  - intros key Hkey.
    inversion W as [ | | | s route_info E Hs Hc Hq Ha | ]; subst;
      try (now destruct Hkey).
    simpl in Hkey.
    destruct (decide (pc_key_of s = key)) as [<- | Hne].
    + exists s, route_info. repeat split; try assumption.
      simpl. apply lookup_insert_eq.
    + rewrite lookup_insert_ne in Hkey by exact Hne. now destruct Hkey.
  - intros s -> Hs Hc Hq Ha.
    rewrite (get_route_data_failed self s Hs Hc Hq Ha) in Hcall.
    injection Hcall as <- <-. repeat split.
Qed.

Lemma failed_lookup_not_cached_witness :
  let fresh := __init__ backend_down in
  fst (get_route_data fresh (Some "b37 7gt"%string)) = None
  /\ route_cache (snd (get_route_data fresh (Some "b37 7gt"%string))) = route_cache fresh
  /\ daily_request_count (snd (get_route_data fresh (Some "b37 7gt"%string))) = 1%nat.
Proof.
  intros fresh.
  destruct (failed_lookup_not_cached fresh
              (snd (get_route_data fresh (Some "b37 7gt"%string)))
              (Some "b37 7gt"%string)
              (fst (get_route_data fresh (Some "b37 7gt"%string))))
    as (_ & _ & Hfail).
  - now destruct (get_route_data fresh (Some "b37 7gt"%string)).
  - destruct (Hfail "b37 7gt"%string) as (Hdata & _ & Hcache & Hcount).
    + reflexivity.
    + discriminate.
    + reflexivity.
    + vm_compute. lia.
    + apply (attempt_raised fresh _ OtherError). reflexivity.
    + repeat split; assumption.
Defined.

(** C10 (no postcode).  A call without a postcode ([None]) or with the
    empty string returns nothing at once and leaves the router as it was:
    no backend call, the same count, the same cache. *)
Theorem missing_postcode_absent (self : NodalRouter) :
  get_route_data self None = (None, self)
  /\ get_route_data self (Some EmptyString) = (None, self)
  /\ backend_calls self (snd (get_route_data self None)) = 0%nat
  /\ backend_calls self (snd (get_route_data self (Some EmptyString))) = 0%nat
  /\ daily_request_count (snd (get_route_data self None)) = daily_request_count self
  /\ daily_request_count (snd (get_route_data self (Some EmptyString)))
     = daily_request_count self
  /\ route_cache (snd (get_route_data self None)) = route_cache self
  /\ route_cache (snd (get_route_data self (Some EmptyString))) = route_cache self.
Proof.
  destruct (get_route_data_missing self) as (-> & ->). simpl.
  unfold backend_calls. rewrite Nat.sub_diag. repeat split.
Qed.

(** The distances the provider hands out are rounded to hundredths: the
    ones it reads from the backend, hence the ones it caches, hence all of
    them on a router that started with an empty cache. *)
Lemma fetched_in_hundredths (self : NodalRouter) (pc_key : string) (route_info : RouteInfo) :
  attempt self pc_key = Returned (Some route_info) ->
  in_hundredths (distance_miles route_info).
Proof.
  unfold attempt. intros H.
  destruct (gmaps self (asked self) pc_key) as [result|e]; [|discriminate H].
  simpl in H. apply read_result_success in H
    as (_ & r0 & rs & element & es & d & dist_meters & default & duration_sec & H).
  destruct H as (_ & _ & _ & _ & _ & _ & _ & ->). simpl.
  apply round2_is_hundredths.
Qed.

Lemma get_route_data_in_hundredths (self self1 : NodalRouter) (pc : option string)
    (data : option RouteInfo) :
  cache_in_hundredths self ->
  get_route_data self pc = (data, self1) ->
  cache_in_hundredths self1
  /\ forall route_info, data = Some route_info -> in_hundredths (distance_miles route_info).
Proof.
  intros Hcache Hcall.
  pose proof (get_route_data_way self pc) as W. rewrite Hcall in W. simpl in W.
  inversion W as [ | s cached E Hs Hc | | s route_info E Hs Hc Hq Ha | ]; subst;
    try (split; [assumption | intros ri; discriminate]).
  - split; [assumption|]. intros ri [= <-]. now apply (Hcache (pc_key_of s)).
  - pose proof (fetched_in_hundredths _ _ _ Ha) as Hri. split.
    + intros key ri. simpl.
      destruct (decide (pc_key_of s = key)) as [<- | Hne].
      * rewrite lookup_insert_eq. now intros [= <-].
      * rewrite lookup_insert_ne by exact Hne. apply Hcache.
    + now intros ri [= <-].
Qed.

Lemma fresh_cache_in_hundredths (client : Client) : cache_in_hundredths (__init__ client).
Proof. intros key ri H. simpl in H. now rewrite lookup_empty in H. Qed.

End Routing.

(** * Further properties of the code *)

(** ** Postcode keys *)

Section Keys.

Lemma upper_ascii_idem (c : ascii) : upper_ascii (upper_ascii c) = upper_ascii c.
Proof.
  destruct c as [b0 b1 b2 b3 b4 b5 b6 b7];
    destruct b0, b1, b2, b3, b4, b5, b6, b7; reflexivity.
Qed.

Lemma isspace_upper_ascii (c : ascii) : isspace (upper_ascii c) = isspace c.
Proof.
  destruct c as [b0 b1 b2 b3 b4 b5 b6 b7];
    destruct b0, b1, b2, b3, b4, b5, b6, b7; reflexivity.
Qed.

Lemma upper_idem (s : string) : upper (upper s) = upper s.
Proof.
  induction s as [|c s IH]; simpl; [reflexivity|].
  now rewrite upper_ascii_idem, IH.
Qed.

Lemma lstrip_upper (s : string) : lstrip (upper s) = upper (lstrip s).
Proof.
  induction s as [|c s IH]; simpl; [reflexivity|].
  rewrite isspace_upper_ascii. now destruct (isspace c).
Qed.

Lemma rstrip_upper (s : string) : rstrip (upper s) = upper (rstrip s).
Proof.
  induction s as [|c s IH]; simpl; [reflexivity|].
  rewrite IH, isspace_upper_ascii.
  destruct (rstrip s); simpl; [now destruct (isspace c) | reflexivity].
Qed.

Lemma strip_upper (s : string) : strip (upper s) = upper (strip s).
Proof. unfold strip. now rewrite lstrip_upper, rstrip_upper. Qed.

Lemma rstrip_idem (s : string) : rstrip (rstrip s) = rstrip s.
Proof.
  induction s as [|c s IH]; simpl; [reflexivity|].
  destruct (rstrip s) as [|d rest] eqn:E.
  - destruct (isspace c) eqn:Ec; simpl; [reflexivity | now rewrite Ec].
  - change (rstrip (String c (String d rest))) with
      (match rstrip (String d rest) with
       | EmptyString => if isspace c then EmptyString else String c EmptyString
       | String _ _ as rest' => String c rest'
       end).
    now rewrite IH.
Qed.

(** What [lstrip] returns does not begin with white space, and [rstrip]
    keeps it so. *)
Lemma lstrip_starts_clean (s : string) : starts_clean (lstrip s).
Proof.
  induction s as [|c s IH]; simpl; [exact I|].
  destruct (isspace c) eqn:E; [exact IH | exact E].
Qed.

Lemma lstrip_clean (s : string) : starts_clean s -> lstrip s = s.
Proof. destruct s as [|c s]; simpl; [reflexivity|]. now intros ->. Qed.

Lemma rstrip_starts_clean (s : string) : starts_clean s -> starts_clean (rstrip s).
Proof.
  destruct s as [|c s]; simpl; [trivial|]. intros E.
  destruct (rstrip s); [now rewrite E | exact E].
Qed.

Lemma strip_idem (s : string) : strip (strip s) = strip s.
Proof.
  unfold strip.
  rewrite (lstrip_clean (rstrip (lstrip s))).
  - apply rstrip_idem.
  - apply rstrip_starts_clean, lstrip_starts_clean.
Qed.

Lemma pc_key_of_twice (s : string) :
  Router.pc_key_of (Router.pc_key_of s) = Router.pc_key_of s.
Proof.
  unfold Router.pc_key_of.
  now rewrite strip_upper, strip_idem, <- strip_upper, upper_idem.
Qed.

(** The key of a postcode, [str(pc).upper().strip()], is its own key, so
    that a lookup by the key is the lookup by the postcode: whenever the
    key is not empty, the two calls return the same data and leave the
    router in the same state. *)
Theorem lookup_by_key (self : Router.NodalRouter) (s : string) :
  Router.pc_key_of (Router.pc_key_of s) = Router.pc_key_of s
  /\ (Router.pc_key_of s <> EmptyString ->
      Router.get_route_data self (Some (Router.pc_key_of s))
      = Router.get_route_data self (Some s)).
Proof.
  split; [apply pc_key_of_twice|].
  intros Hkey. unfold Router.get_route_data.
  rewrite pc_key_of_twice.
  destruct (Router.pc_key_of s) as [|c k] eqn:E; [contradiction|].
  destruct s as [|c' s']; [discriminate E|]. reflexivity.
Qed.

Lemma lookup_by_key_witness :
  Router.get_route_data Examples.exhausted_router (Some "B37 7GT"%string)
  = Router.get_route_data Examples.exhausted_router (Some " b37 7gt "%string).
Proof.
  apply (lookup_by_key Examples.exhausted_router " b37 7gt "%string).
  discriminate.
Defined.

(** [is_london] looks at the key only: lower case and surrounding white
    space make no difference, and a missing postcode is not in London. *)
Theorem is_london_of_key (self : Optimizer.NodalOptimizer) (s : string) :
  Optimizer.is_london self (Some (Router.pc_key_of s)) = Optimizer.is_london self (Some s)
  /\ Optimizer.is_london self None = false.
Proof.
  split; [|reflexivity]. unfold Optimizer.is_london.
  change (strip (upper (Router.pc_key_of s))) with (Router.pc_key_of (Router.pc_key_of s)).
  now rewrite pc_key_of_twice.
Qed.

End Keys.

(** ** Runs of lookups *)

Section RoutingRuns.
Import Router Examples.

(** A relation between the router before and after that holds across one
    call, whatever the call, holds across a run of calls. *)
Lemma run_relates (R : NodalRouter -> NodalRouter -> Prop) :
  (forall s, R s s) ->
  (forall a b c, R a b -> R b c -> R a c) ->
  (forall s pc data s1, way s pc data s1 -> R s s1) ->
  forall postcodes self, R self (snd (get_route_data_each self postcodes)).
Proof.
  intros Hrefl Htrans Hstep postcodes.
  induction postcodes as [|pc later IH]; intros self; simpl.
  - apply Hrefl.
  - pose proof (get_route_data_way self pc) as W.
    destruct (get_route_data self pc) as [data self1]. simpl in W.
    specialize (IH self1).
    destruct (get_route_data_each self1 later) as [datas self2]. simpl in *.
    eapply Htrans; [eapply Hstep; exact W | exact IH].
Qed.

(** The counter counts the lookups sent to the backend, answered or not:
    over any run of calls it grows by exactly the number of backend calls
    of the run, so it never goes down, and the daily limit stays what it
    was. *)
Theorem counter_counts_backend_calls (self : NodalRouter) (postcodes : list (option string)) :
  let after := snd (get_route_data_each self postcodes) in
  daily_request_count after = (daily_request_count self + backend_calls self after)%nat
  /\ (daily_request_count self <= daily_request_count after)%nat
  /\ MAX_DAILY_LIMIT after = MAX_DAILY_LIMIT self.
Proof.
  destruct (get_route_data_each_counts postcodes self) as (M & extra & A & C & _).
  cbv zeta. unfold backend_calls. rewrite A, C, length_app.
  repeat split; [lia | lia | exact M].
Qed.

Lemma cache_kept_refl (s : NodalRouter) : cache_kept s s.
Proof. split; [done|]. exists []. now rewrite app_nil_r. Qed.

Lemma cache_kept_trans (a b c : NodalRouter) :
  cache_kept a b -> cache_kept b c -> cache_kept a c.
Proof.
  intros (S1 & e1 & A1 & F1) (S2 & e2 & A2 & F2). split; [now transitivity (route_cache b)|].
  exists (e1 ++ e2). rewrite A2, A1, <- app_assoc. split; [reflexivity|].
  apply Forall_app. split; [exact F1|].
  eapply List.Forall_impl; [|exact F2].
  intros key Hkey. simpl in Hkey. exact (lookup_weaken_None _ _ _ Hkey S1).
Qed.

Lemma cache_kept_step (s : NodalRouter) (pc : option string) (data : option RouteInfo)
    (s1 : NodalRouter) :
  way s pc data s1 -> cache_kept s s1.
Proof.
  intros W. destruct W as [ | | | k route_info _ _ Hc _ _ | k _ _ Hc _ _ ];
    try apply cache_kept_refl.
  - split; simpl.
    + now apply insert_subseteq.
    + exists [pc_key_of k]. split; [reflexivity|]. now constructor.
  - split; simpl; [reflexivity|].
    exists [pc_key_of k]. split; [reflexivity|]. now constructor.
Qed.

(** Route data is cached for good: over any run of calls, every entry of
    the cache stays in it with the data it had (nothing is evicted or
    overwritten). *)
Theorem cache_entries_stay (self : NodalRouter) (postcodes : list (option string))
    (key : string) (route_info : RouteInfo) :
  route_cache self !! key = Some route_info ->
  route_cache (snd (get_route_data_each self postcodes)) !! key = Some route_info.
Proof.
  intros H.
  destruct (run_relates cache_kept cache_kept_refl cache_kept_trans cache_kept_step
              postcodes self) as (S & _).
  eapply lookup_weaken; eassumption.
Qed.

Lemma cache_entries_stay_witness :
  route_cache (snd (get_route_data_each exhausted_router
                      [Some "w1a 1aa"%string; None; Some "B37 7GT"%string]))
    !! "B37 7GT"%string
  = Some {| distance_miles := 52; duration_min := 70 |}.
Proof.
  apply (cache_entries_stay exhausted_router). reflexivity.
Defined.

(** A cached postcode costs nothing: over any run of calls, the backend
    is never asked for a key that was in the cache when the run began. *)
Theorem cached_keys_never_asked (self : NodalRouter) (postcodes : list (option string)) :
  exists extra,
    asked (snd (get_route_data_each self postcodes)) = asked self ++ extra
    /\ Forall (fun key => route_cache self !! key = None) extra.
Proof.
  destruct (run_relates cache_kept cache_kept_refl cache_kept_trans cache_kept_step
              postcodes self) as (_ & H).
  exact H.
Qed.

Lemma keys_normal_step (s : NodalRouter) (pc : option string) (data : option RouteInfo)
    (s1 : NodalRouter) :
  way s pc data s1 -> keys_normal s -> keys_normal s1.
Proof.
  intros W H. destruct W as [ | | | k route_info _ _ _ _ _ | ]; try exact H.
  intros key ri. simpl.
  destruct (decide (pc_key_of k = key)) as [<- | Hne].
  - intros _. apply pc_key_of_twice.
  - rewrite lookup_insert_ne by exact Hne. apply H.
Qed.

Lemma hundredths_step (s : NodalRouter) (pc : option string) (data : option RouteInfo)
    (s1 : NodalRouter) :
  way s pc data s1 -> cache_in_hundredths s -> cache_in_hundredths s1.
Proof.
  intros W H. destruct W as [ | | | k route_info _ _ _ _ Ha | ]; try exact H.
  intros key ri. simpl.
  destruct (decide (pc_key_of k = key)) as [<- | Hne].
  - rewrite lookup_insert_eq. intros [= <-]. eapply fetched_in_hundredths, Ha.
  - rewrite lookup_insert_ne by exact Hne. apply H.
Qed.

(** On a router that started with an empty cache, whatever calls were
    made, the cache is keyed by upper-case, trimmed postcodes only, and
    the distances in it are whole hundredths of a mile. *)
Theorem cache_of_fresh_router (client : Client) (postcodes : list (option string)) :
  let after := snd (get_route_data_each (__init__ client) postcodes) in
  keys_normal after /\ cache_in_hundredths after.
Proof.
  cbv zeta. split.
  - apply (run_relates (fun a b => keys_normal a -> keys_normal b)); auto.
    + intros s pc data s1 W. now apply (keys_normal_step s pc data).
    + intros key ri H. simpl in H. now rewrite lookup_empty in H.
  - apply (run_relates (fun a b => cache_in_hundredths a -> cache_in_hundredths b)); auto.
    + intros s pc data s1 W. now apply (hundredths_step s pc data).
    + apply fresh_cache_in_hundredths.
Qed.

End RoutingRuns.

(** ** Reading the backend's answer *)

Section Answers.
Import Router Examples.

Lemma read_result_measured (result : Matrix) (element : Element) (dist_meters : Q) :
  measured result element dist_meters ->
  read_result result
  = bind (getitem (duration element)) (fun default =>
    bind (getitem (value (get (duration_in_traffic element) default))) (fun duration_sec =>
    Returned (Some (route_info_of dist_meters duration_sec)))).
Proof.
  intros (Hst & Hel & Hest & d & Hd & Hv).
  unfold read_result, first_element in *. rewrite Hst. simpl.
  destruct (rows result) as [[|r0 rs]|]; try discriminate Hel. simpl in *.
  destruct (elements r0) as [[|e es]|]; try discriminate Hel. simpl in *.
  injection Hel as ->. rewrite Hest. simpl. rewrite Hd. simpl. rewrite Hv. reflexivity.
Qed.

(** Where the duration comes from.  For an answer that is in order up to
    its distance: the time is the one in [duration_in_traffic] when that
    entry is there, and the one in [duration] when it is not; but the
    [duration] entry is read in any case, so that an element without it
    raises [KeyError] even when it has a time in traffic; and an entry
    [duration_in_traffic] without a value raises too, whatever [duration]
    holds. *)
Theorem duration_source (result : Matrix) (element : Element) (dist_meters : Q) :
  measured result element dist_meters ->
  (duration element = None -> read_result result = Raised KeyError)
  /\ (forall default in_traffic duration_sec,
        duration element = Some default ->
        duration_in_traffic element = Some in_traffic ->
        value in_traffic = Some duration_sec ->
        read_result result = Returned (Some (route_info_of dist_meters duration_sec)))
  /\ (forall default duration_sec,
        duration element = Some default ->
        duration_in_traffic element = None ->
        value default = Some duration_sec ->
        read_result result = Returned (Some (route_info_of dist_meters duration_sec)))
  /\ (forall default in_traffic,
        duration element = Some default ->
        duration_in_traffic element = Some in_traffic ->
        value in_traffic = None ->
        read_result result = Raised KeyError).
Proof.
  intros M. rewrite (read_result_measured result element dist_meters M).
  repeat split.
  - intros ->. reflexivity.
  - intros default in_traffic duration_sec -> -> Hv. simpl. now rewrite Hv.
  - intros default duration_sec -> -> Hv. simpl. now rewrite Hv.
  - intros default in_traffic -> -> Hv. simpl. now rewrite Hv.
Qed.

Lemma duration_source_witness :
  read_result ten_miles = Returned (Some (route_info_of 16093 1800)).
Proof.
  destruct (duration_source ten_miles
              {| element_status := Some "OK"%string;
                 distance := Some {| value := Some 16093 |};
                 duration := Some {| value := Some 1500 |};
                 duration_in_traffic := Some {| value := Some 1800 |} |} 16093)
    as (_ & Htraffic & _).
  - repeat split. exists {| value := Some 16093 |}. split; reflexivity.
  - apply (Htraffic {| value := Some 1500 |} {| value := Some 1800 |}); reflexivity.
Defined.

(** An answer gives route data exactly when both statuses are ['OK'], the
    first element has a distance with its value and a [duration] entry,
    and the entry the time is read from has a value; the data is then
    that distance in miles and that time in minutes, each rounded to two
    decimals. *)
Theorem read_result_data_iff (result : Matrix) (route_info : RouteInfo) :
  read_result result = Returned (Some route_info)
  <-> exists element dist_meters default duration_sec,
        measured result element dist_meters
        /\ duration element = Some default
        /\ value (get (duration_in_traffic element) default) = Some duration_sec
        /\ route_info = route_info_of dist_meters duration_sec.
Proof.
  split.
  - intros H. apply read_result_success in H
      as (Hst & r0 & rs & element & es & d & dist_meters & default & duration_sec & H).
    destruct H as (Hr & He & Hest & Hd & Hv & Hdu & Hsec & ->).
    exists element, dist_meters, default, duration_sec.
    repeat split; try assumption.
    + unfold first_element. rewrite Hr. simpl. rewrite He. reflexivity.
    + now exists d.
  - intros (element & dist_meters & default & duration_sec & M & Hdu & Hsec & ->).
    rewrite (read_result_measured result element dist_meters M), Hdu. simpl.
    now rewrite Hsec.
Qed.

(** A lookup whose answer lacks the [duration] entry comes back empty
    and uses up one unit of quota, time in traffic or not. *)
Theorem lookup_without_duration (self : NodalRouter) (s : string)
    (result : Matrix) (element : Element) (dist_meters : Q) :
  s <> EmptyString ->
  route_cache self !! pc_key_of s = None ->
  (daily_request_count self < MAX_DAILY_LIMIT self)%nat ->
  gmaps self (asked self) (pc_key_of s) = Returned result ->
  measured result element dist_meters ->
  duration element = None ->
  get_route_data self (Some s) = (None, record_call (pc_key_of s) (count_request self)).
Proof.
  intros Hs Hc Hq Hg M Hd.
  apply get_route_data_failed; try assumption.
  intros ri. unfold attempt. rewrite Hg. simpl.
  rewrite (read_result_measured result element dist_meters M), Hd. discriminate.
Qed.

Lemma lookup_without_duration_witness :
  get_route_data (__init__ backend_no_duration) (Some "b37 7gt"%string)
  = (None,
     record_call "B37 7GT" (count_request (__init__ backend_no_duration))).
Proof.
  apply (lookup_without_duration (__init__ backend_no_duration) "b37 7gt" no_duration
           {| element_status := Some "OK"%string;
              distance := Some {| value := Some 16093 |};
              duration := None;
              duration_in_traffic := Some {| value := Some 1800 |} |} 16093).
  - discriminate.
  - reflexivity.
  - vm_compute. lia.
  - reflexivity.
  - repeat split. exists {| value := Some 16093 |}. split; reflexivity.
  - reflexivity.
Defined.

End Answers.

(** ** Rounding, mileage and cost *)

Section Amounts.
Import Optimizer Kinds Examples.

Lemma round_half_even_near (x : Q) :
  inject_Z (round_half_even x) - (1 # 2) <= x
  /\ x <= inject_Z (round_half_even x) + (1 # 2).
Proof.
  unfold round_half_even.
  pose proof (Qfloor_le x) as Hl. pose proof (Qlt_floor x) as Hu.
  rewrite inject_Z_plus in Hu. change (inject_Z 1) with 1 in Hu.
  destruct (Qcompare (x - inject_Z (Qfloor x)) (1 # 2)) eqn:C.
  - apply Qeq_alt in C.
    destruct (Z.even (Qfloor x)); rewrite ?inject_Z_plus;
      change (inject_Z 1) with 1; split; lra.
  - apply Qlt_alt in C. split; lra.
  - apply Qgt_alt in C. rewrite inject_Z_plus. change (inject_Z 1) with 1. split; lra.
Qed.

Lemma round_half_even_mono (x y : Q) :
  x <= y -> (round_half_even x <= round_half_even y)%Z.
Proof.
  intros H.
  destruct (Z.le_gt_cases (round_half_even x) (round_half_even y)) as [L | G];
    [exact L|].
  exfalso.
  assert (G' : (round_half_even y + 1 <= round_half_even x)%Z) by lia.
  rewrite Zle_Qle, inject_Z_plus in G'. change (inject_Z 1) with 1 in G'.
  destruct (round_half_even_near x) as [X1 X2].
  destruct (round_half_even_near y) as [Y1 Y2].
  assert (E : x == y) by lra.
  pose proof (round_half_even_comp x y E). lia.
Qed.

Lemma round2_near (x : Q) : round2 x - (1 # 200) <= x /\ x <= round2 x + (1 # 200).
Proof.
  unfold round2. destruct (round_half_even_near (x * 100)) as [L U].
  set (r := inject_Z (round_half_even (x * 100))) in *.
  unfold Qdiv. change (/ 100) with (1 # 100). split; lra.
Qed.

Lemma round2_mono (x y : Q) : x <= y -> round2 x <= round2 y.
Proof.
  intros H. unfold round2.
  assert (M : (round_half_even (x * 100) <= round_half_even (y * 100))%Z).
  { apply round_half_even_mono. lra. }
  rewrite Zle_Qle in M.
  set (a := inject_Z (round_half_even (x * 100))) in *.
  set (b := inject_Z (round_half_even (y * 100))) in *.
  unfold Qdiv. change (/ 100) with (1 # 100). lra.
Qed.

Lemma round2_nonneg (x : Q) : 0 <= x -> 0 <= round2 x.
Proof.
  intros H. apply round2_mono in H.
  assert (Z0 : round2 0 == 0) by (vm_compute; reflexivity).
  now rewrite Z0 in H.
Qed.

Lemma stops_le (n n' : nat) :
  (n <= n')%nat -> inject_Z (Z.of_nat n) <= inject_Z (Z.of_nat n').
Proof. intros H. rewrite <- Zle_Qle. lia. Qed.

(** The mileage estimate is the stem there and back plus 1.2 miles a
    stop, to the nearest hundredth: it is off by half a hundredth at
    most, it does not go down when the region is further or the stops are
    more, and it is not negative for a distance that is not. *)
Theorem human_route_miles_bounds (self : NodalOptimizer) (dist dist' : Q) (stops stops' : nat) :
  let exact := dist * 2 + inject_Z (Z.of_nat stops) * (12 # 10) in
  let miles := calculate_human_route_miles self dist stops in
  exact - (1 # 200) <= miles
  /\ miles <= exact + (1 # 200)
  /\ (dist <= dist' -> (stops <= stops')%nat ->
      miles <= calculate_human_route_miles self dist' stops')
  /\ (0 <= dist -> 0 <= miles).
Proof.
  cbv zeta. unfold calculate_human_route_miles.
  destruct (round2_near (dist * 2 + inject_Z (Z.of_nat stops) * (12 # 10))) as [L U].
  split; [|split; [|split]].
  - lra.
  - lra.
  - intros Hd Hs. apply round2_mono. apply stops_le in Hs. lra.
  - intros Hd. apply round2_nonneg.
    assert (Hs : inject_Z (Z.of_nat 0) <= inject_Z (Z.of_nat stops))
      by (apply stops_le; lia).
    change (inject_Z (Z.of_nat 0)) with 0 in Hs. lra.
Qed.

Lemma human_route_miles_bounds_witness :
  calculate_human_route_miles small_van 10 1
  <= calculate_human_route_miles small_van (10123 # 1000) 3.
Proof.
  destruct (human_route_miles_bounds small_van 10 (10123 # 1000) 1 3)
    as (_ & _ & Hmono & _).
  apply Hmono.
  - vm_compute. discriminate.
  - lia.
Defined.

Lemma init_body_priced (m3 kg : Q) : priced (init_body m3 kg).
Proof.
  split; [reflexivity|]. split; [simpl; lra|]. unfold same_constants. tauto.
Qed.

Lemma enter_diesel_price_priced (t : fuel_input) (self : NodalOptimizer) :
  match t with Price p => 0 <= p | Blank | NotANumber => True end ->
  priced self -> priced (enter_diesel_price t self).
Proof.
  intros Ht (Hf & Hp & Hc). split; [now apply enter_diesel_price_current|].
  split.
  - destruct t; simpl; assumption.
  - pose proof (enter_diesel_price_constants t self) as Hs.
    unfold same_constants in *. intuition congruence.
Qed.

Lemma enter_diesel_prices_priced (typed : list fuel_input) (self : NodalOptimizer) :
  no_negative_price typed -> priced self -> priced (enter_diesel_prices typed self).
Proof.
  unfold enter_diesel_prices. intros H. revert self.
  induction H as [|t typed Ht _ IH]; intros self Hs; simpl.
  - exact Hs.
  - apply IH. now apply enter_diesel_price_priced.
Qed.

Lemma priced_fuel_nonneg (self : NodalOptimizer) :
  priced self -> 0 <= FUEL_COST_PER_MILE self.
Proof.
  intros (Hf & Hp & _ & _ & _ & _ & _ & Hv). rewrite Hf, Hv.
  change (VAN_MPG (init_body 0 0)) with 30.
  unfold Qdiv. change (/ 30) with (1 # 30).
  set (p := current_diesel_price self) in *. lra.
Qed.

Lemma priced_cost (self : NodalOptimizer) (miles : Q) (flag : bool) :
  priced self ->
  calculate_van_cost self miles flag
  == (165 + miles * FUEL_COST_PER_MILE self + (if flag then 15 else 0)) * (110 # 100).
Proof.
  intros (_ & _ & Hd & Hi & Hm & Hl & Hs & _). unfold calculate_van_cost.
  rewrite Hd, Hi, Hm, Hl, Hs. simpl. destruct flag; ring.
Qed.



(** No route is accepted for less than 181.50 of courier cost saved: for
    a van as built, with no negative diesel price entered, and candidates
    at non-negative distances, a returned frame with rows has courier
    costs that sum to 181.50 at least. *)
Theorem accepted_route_saves_at_least (K : SortKind) (m3 kg : Q)
    (typed : list fuel_input) (df : list RoutedOrder) :
  no_negative_price typed ->
  Forall (fun o : RoutedOrder => 0 <= distance_miles o) df ->
  let self := enter_diesel_prices typed (init_body m3 kg) in
  exists result,
    select_best_regional_orders self (Some df) = Returned result
    /\ (result <> [] -> (1815 # 10) <= total_courier_cost (map row result)).
Proof.
  intros Hp Hd self.
  assert (P : priced self)
    by (apply enter_diesel_prices_priced; [exact Hp | apply init_body_priced]).
  destruct df as [|r rest]; [exists []; split; [reflexivity | congruence]|].
  rewrite select_frame.
  set (adm := admitted self (r :: rest)).
  set (miles := calculate_human_route_miles self (max_distance r rest) (length adm)).
  destruct (gt _ _) eqn:G; [exists []; split; [reflexivity | congruence]|].
  eexists. split; [reflexivity|]. intros _.
  rewrite map_row_with_final_route_miles.
  apply gt_false_le in G. eapply Qle_trans; [|exact G].
  assert (Hmiles : 0 <= miles).
  { unfold miles, calculate_human_route_miles. apply round2_nonneg.
    pose proof (max_from_ge_start (map distance_miles rest) (distance_miles r)) as Hmax.
    fold (max_distance r rest) in Hmax.
    apply Forall_inv in Hd.
    assert (Hs : inject_Z (Z.of_nat 0) <= inject_Z (Z.of_nat (length adm)))
      by (apply stops_le; lia).
    change (inject_Z (Z.of_nat 0)) with 0 in Hs. lra. }
  pose proof (priced_fuel_nonneg self P) as Hf.
  rewrite (priced_cost self _ _ P).
  set (f := FUEL_COST_PER_MILE self) in *.
  assert (0 <= miles * f) by nra.
  destruct (any_london self adm); lra.
Qed.

Lemma accepted_route_saves_at_least_witness :
  exists result,
    @select_best_regional_orders stable_kind (init_body (1875 # 1000) 1500)
      (Some [parcel_c; parcel_a; parcel_b])
    = Returned result
    /\ (1815 # 10) <= total_courier_cost (map row result).
Proof.
  destruct (accepted_route_saves_at_least stable_kind (1875 # 1000) 1500 []
              [parcel_c; parcel_a; parcel_b])
    as (result & Hsel & Hmin).
  - constructor.
  - repeat constructor; vm_compute; discriminate.
  - exists result. split; [exact Hsel|]. apply Hmin.
    vm_compute in Hsel. injection Hsel as <-. discriminate.
Defined.

End Amounts.

(** ** The shape of the load *)

Section LoadShape.
Import Optimizer Kinds Examples.

Context `{K : SortKind}.
Variable self : NodalOptimizer.

Lemma sublist_Forall_keep {A : Type} (P : A -> Prop) (l1 l2 : list A) :
  sublist l1 l2 -> Forall P l2 -> Forall P l1.
Proof.
  induction 1 as [|x l1 l2 _ IH|x l1 l2 _ IH]; intros H.
  - constructor.
  - apply Forall_cons_iff in H as [Hx H]. constructor; auto.
  - apply Forall_cons_iff in H as [_ H]. auto.
Qed.

Lemma sublist_sorted (l1 l2 : list RoutedOrder) :
  sublist l1 l2 -> StronglySorted costlier_first l2 -> StronglySorted costlier_first l1.
Proof.
  induction 1 as [|x l1 l2 S IH|x l1 l2 S IH]; intros H.
  - constructor.
  - apply StronglySorted_inv in H as [H Hx]. constructor; [now apply IH|].
    eapply sublist_Forall_keep; eassumption.
  - apply StronglySorted_inv in H as [H _]. now apply IH.
Qed.

(** The loop appends rows in the order it meets them. *)
Lemma load_rows_sublist (rows : list RoutedOrder) (ld : Load) :
  exists later,
    selected_orders (fold_left (load_row self) rows ld) = selected_orders ld ++ later
    /\ sublist later rows.
Proof.
  revert ld. induction rows as [|r rows IH]; intros ld; simpl.
  - exists []. split; [now rewrite app_nil_r | constructor].
  - destruct (IH (load_row self ld r)) as (later & E & S). rewrite E.
    unfold load_row. destruct (fits self ld r).
    + exists (r :: later). simpl. rewrite <- app_assoc.
      split; [reflexivity | now constructor].
    + exists later. split; [reflexivity | now constructor].
Qed.

Lemma admitted_sublist (df : list RoutedOrder) :
  sublist (admitted self df) (sort_values df).
Proof.
  destruct (load_rows_sublist (sort_values df) empty_load) as (later & E & S).
  unfold admitted, load_all. now rewrite E.
Qed.

(** The returned frame is in the order of the sorted candidates: its rows
    are rows of the sorted frame, none twice over, in the same order;
    hence highest courier cost first, and no more rows than candidates. *)
Theorem selection_keeps_sorted_order (df : list RoutedOrder) :
  exists result,
    select_best_regional_orders self (Some df) = Returned result
    /\ sublist (map row result) (sort_values df)
    /\ StronglySorted costlier_first (map row result)
    /\ (length result <= length df)%nat.
Proof.
  destruct (select_returns self (Some df)) as (result & Hsel & Hres).
  exists result. split; [exact Hsel|].
  assert (S : sublist (map row result) (sort_values df)).
  { destruct Hres as [-> | (r & rest & Hdf & _ & Hrows)].
    - apply sublist_nil_l.
    - injection Hdf as ->. rewrite Hrows. apply admitted_sublist. }
  split; [exact S|]. split.
  - eapply sublist_sorted; [exact S | apply sort_values_descending].
  - apply sublist_length in S. rewrite length_map in S.
    rewrite <- (Permutation_length (sort_values_rows df)) in S. exact S.
Qed.

(** With sizes that are not negative, the running totals are not either,
    and each selected row fits the van on its own. *)
Lemma load_rows_each_fits (rows : list RoutedOrder) (ld : Load) :
  sizes_not_negative rows ->
  0 <= curr_vol ld -> 0 <= curr_kg ld ->
  Forall (fun o : RoutedOrder => volume_m3 o <= van_capacity_m3 self
                                 /\ weight_kg o <= van_capacity_kg self)
    (selected_orders ld) ->
  Forall (fun o : RoutedOrder => volume_m3 o <= van_capacity_m3 self
                                 /\ weight_kg o <= van_capacity_kg self)
    (selected_orders (fold_left (load_row self) rows ld)).
Proof.
  intros Hrows. revert ld.
  induction Hrows as [|r rows [Hv Hw] _ IH]; intros ld Hcv Hck Hsel; simpl.
  - exact Hsel.
  - unfold load_row at 2. destruct (fits self ld r) eqn:F.
    + unfold fits in F. apply andb_true_iff in F as [Fv Fw].
      apply Qle_bool_iff in Fv, Fw.
      apply IH; simpl; [lra | lra |].
      apply Forall_app. split; [exact Hsel|].
      constructor; [split; lra | constructor].
    + now apply IH.
Qed.

(** An order too big for the van is never loaded: when no candidate has
    a negative volume or weight, every admitted row has a volume within
    the volume limit and a weight within the weight limit. *)
Theorem oversize_never_admitted (df : list RoutedOrder) :
  sizes_not_negative df ->
  Forall (fun o : RoutedOrder => volume_m3 o <= van_capacity_m3 self
                                 /\ weight_kg o <= van_capacity_kg self)
    (admitted self df).
Proof.
  intros H. unfold admitted, load_all.
  apply load_rows_each_fits; simpl; try lra; [|constructor].
  unfold sizes_not_negative in *.
  eapply Permutation_Forall; [apply sort_values_rows | exact H].
Qed.

End LoadShape.

Section LoadWhole.
Import Optimizer Kinds Examples.

Lemma oversize_never_admitted_witness :
  Forall (fun o : RoutedOrder => volume_m3 o <= van_capacity_m3 small_van
                                 /\ weight_kg o <= van_capacity_kg small_van)
    (@admitted stable_kind small_van [parcel_c; parcel_a; parcel_b]).
Proof.
  apply (@oversize_never_admitted stable_kind small_van).
  repeat constructor; vm_compute; discriminate.
Defined.

Lemma sum_perm (l l' : list Q) : Permutation l l' -> sum l == sum l'.
Proof.
  induction 1 as [|x l l' _ IH|x y l|l l' l'' _ IH1 _ IH2]; simpl.
  - reflexivity.
  - now rewrite IH.
  - ring.
  - now rewrite IH1.
Qed.

Lemma sum_nonneg (l : list Q) : Forall (fun x => 0 <= x) l -> 0 <= sum l.
Proof.
  induction 1 as [|x l Hx _ IH]; simpl; lra.
Qed.

Lemma total_volume_nonneg (rows : list RoutedOrder) :
  sizes_not_negative rows -> 0 <= total_volume rows.
Proof.
  intros H. apply sum_nonneg, Forall_map.
  eapply List.Forall_impl; [|exact H]. now intros o [Hv _].
Qed.

Lemma total_weight_nonneg (rows : list RoutedOrder) :
  sizes_not_negative rows -> 0 <= total_weight rows.
Proof.
  intros H. apply sum_nonneg, Forall_map.
  eapply List.Forall_impl; [|exact H]. now intros o [_ Hw].
Qed.

Lemma total_volume_app (a b : list RoutedOrder) :
  total_volume (a ++ b) == total_volume a + total_volume b.
Proof. unfold total_volume. now rewrite map_app, sum_app. Qed.

Lemma total_weight_app (a b : list RoutedOrder) :
  total_weight (a ++ b) == total_weight a + total_weight b.
Proof. unfold total_weight. now rewrite map_app, sum_app. Qed.

(** When what is loaded and what is still to come fit together, all of
    it is loaded. *)
Lemma load_rows_all (self : NodalOptimizer) (rows : list RoutedOrder) (ld : Load) :
  sizes_not_negative rows ->
  totals_agree ld ->
  within_budget self (selected_orders ld ++ rows) ->
  selected_orders (fold_left (load_row self) rows ld) = selected_orders ld ++ rows.
Proof.
  intros Hrows. revert ld.
  induction Hrows as [|r rows [Hv Hw] Hrest IH]; intros ld T W; simpl.
  - now rewrite app_nil_r.
  - assert (F : fits self ld r = true).
    { apply fits_iff; [exact T|].
      destruct W as [Wv Ww].
      change (r :: rows) with ([r] ++ rows) in Wv, Ww.
      rewrite app_assoc, total_volume_app in Wv.
      rewrite app_assoc, total_weight_app in Ww.
      pose proof (total_volume_nonneg rows Hrest).
      pose proof (total_weight_nonneg rows Hrest).
      split; lra. }
    rewrite IH.
    + unfold load_row. rewrite F. simpl. now rewrite <- app_assoc.
    + now apply load_row_totals.
    + unfold load_row. rewrite F. simpl. now rewrite <- app_assoc.
Qed.





End LoadWhole.

(** ** Frames without ties *)

Section NoTies.
Import Optimizer Kinds Examples.

Lemma rows_costing_perm (c : Q) (l l' : list RoutedOrder) :
  Permutation l l' -> Permutation (rows_costing c l) (rows_costing c l').
Proof.
  unfold rows_costing.
  induction 1 as [|x l l' _ IH|x y l|l l' l'' _ IH1 _ IH2]; simpl.
  - constructor.
  - destruct (Qeq_bool (courier_cost_gbp x) c); [now constructor | exact IH].
  - destruct (Qeq_bool (courier_cost_gbp x) c), (Qeq_bool (courier_cost_gbp y) c);
      try reflexivity. apply perm_swap.
  - now transitivity (List.filter (fun r : RoutedOrder => Qeq_bool (courier_cost_gbp r) c) l').
Qed.

Lemma rows_costing_single (c : Q) (l : list RoutedOrder) :
  costs_differ l -> (length (rows_costing c l) <= 1)%nat.
Proof.
  unfold rows_costing.
  induction 1 as [|a l Ha _ IH]; simpl; [lia|].
  destruct (Qeq_bool (courier_cost_gbp a) c) eqn:E; [|exact IH].
  apply Qeq_bool_iff in E.
  assert (N : List.filter (fun r : RoutedOrder => Qeq_bool (courier_cost_gbp r) c) l = []).
  { clear IH. induction Ha as [|b l Hb _ IHa]; simpl; [reflexivity|].
    destruct (Qeq_bool (courier_cost_gbp b) c) eqn:Eb; [|exact IHa].
    apply Qeq_bool_iff in Eb. exfalso. apply Hb. now rewrite E, Eb. }
  rewrite N. simpl. lia.
Qed.

Lemma short_perm_eq (l l' : list RoutedOrder) :
  (length l <= 1)%nat -> Permutation l l' -> l = l'.
Proof.
  intros Hl P. destruct l as [|x [|y l]]; simpl in Hl; try lia.
  - now apply Permutation_nil in P.
  - now apply Permutation_length_1_inv in P.
Qed.

Lemma no_ties_kept (K : SortKind) (df : list RoutedOrder) :
  costs_differ df -> keeps_tie_order df (sort_values df).
Proof.
  intros H c. symmetry. apply short_perm_eq.
  - now apply rows_costing_single.
  - apply rows_costing_perm, sort_values_rows.
Qed.

(** Without ties the sorting routine does not matter: when no two
    candidates have the same courier cost, every routine sorts the frame
    to the same list and the selector returns the same frame under
    each. *)
Theorem no_ties_one_result (K K' : SortKind) (self : NodalOptimizer)
    (df : list RoutedOrder) :
  costs_differ df ->
  @sort_values K' df = @sort_values K df
  /\ @select_best_regional_orders K' self (Some df)
     = @select_best_regional_orders K self (Some df).
Proof.
  intros H.
  assert (E : @sort_values K' df = @sort_values K df).
  { apply sorted_ties_unique; try apply sort_values_descending.
    intros c. now rewrite !no_ties_kept. }
  split; [exact E | now apply select_same_sorted].
Qed.

Lemma no_ties_one_result_witness :
  @select_best_regional_orders unstable_kind small_van (Some [parcel_c; parcel_a])
  = @select_best_regional_orders stable_kind small_van (Some [parcel_c; parcel_a]).
Proof.
  apply (no_ties_one_result stable_kind unstable_kind small_van [parcel_c; parcel_a]).
  repeat constructor. vm_compute. discriminate.
Defined.

End NoTies.

(** ** The history log *)

Section History.
Import Optimizer Kinds Examples.

Lemma in_hundredths_round2 (x : Q) : exists k : Z, round2 x * 100 == inject_Z k.
Proof. apply round2_is_hundredths. Qed.

Lemma round2_of_difference (a b : Q) (ka kb : Z) :
  a * 100 == inject_Z ka -> b * 100 == inject_Z kb -> round2 (a - b) == a - b.
Proof.
  intros Ha Hb. apply (round2_hundredths _ (ka - kb)).
  unfold Z.sub. rewrite inject_Z_plus, inject_Z_opp, <- Ha, <- Hb. ring.
Qed.

(** The ledger adds up: in every record written, whatever the
    arguments, the profit is exactly the saving less the cost, both as
    written (each is a whole number of hundredths, so the last rounding
    changes nothing). *)
Theorem logged_profit_is_difference (self : NodalOptimizer) (today : string)
    (total_orders_count : nat) (selected_df : list SelectedRow) (total_miles : Q)
    (status note : string) :
  let record :=
    daily_record self today total_orders_count selected_df total_miles status note in
  Net_Profit record == Courier_Saving record - Nodal_Cost record.
Proof.
  cbv zeta. unfold daily_record. simpl.
  set (saving := if match selected_df with [] => true | _ :: _ => false end then 0 else _).
  set (cost := if (_ && _)%bool then _ else 0).
  assert (Hs : exists k, saving * 100 == inject_Z k).
  { subst saving. destruct selected_df; [exists 0%Z; reflexivity | apply in_hundredths_round2]. }
  assert (Hc : exists k, cost * 100 == inject_Z k).
  { subst cost. destruct (_ && _)%bool; [apply in_hundredths_round2 | exists 0%Z; reflexivity]. }
  destruct Hs as [ks Hs]. destruct Hc as [kc Hc].
  now apply (round2_of_difference saving cost ks kc).
Qed.

Lemma existsb_map {A B : Type} (f : B -> bool) (g : A -> B) (l : list A) :
  existsb f (map g l) = existsb (fun a => f (g a)) l.
Proof. induction l as [|a l IH]; simpl; [reflexivity | now rewrite IH]. Qed.



End History.

(** ** The regional analysis *)

Section Pipeline.
Import Optimizer Router Core Kinds Examples.

(** The loop of the analysis is a run of calls on the router. *)
Lemma fetch_all_run (r : Router.NodalRouter) (route_map : gmap string RouteInfo)
    (pcs : list string) :
  fst (fetch_all r route_map pcs) = snd (get_route_data_each r (map Some pcs)).
Proof.
  revert r route_map. induction pcs as [|pc later IH]; intros r route_map;
    cbn [fetch_all get_route_data_each map].
  - reflexivity.
  - destruct (get_route_data r (Some pc)) as [[info|] r1];
      [specialize (IH r1 (<[pc:=info]> route_map)) | specialize (IH r1 route_map)];
      destruct (get_route_data_each r1 (map Some later)); exact IH.
Qed.

(** A run asks the backend at most once per call. *)
Lemma run_calls_at_most_calls (postcodes : list (option string)) (self : Router.NodalRouter) :
  (backend_calls self (snd (get_route_data_each self postcodes)) <= length postcodes)%nat.
Proof.
  unfold backend_calls. revert self.
  induction postcodes as [|pc later IH]; intros self; cbn [get_route_data_each].
  - simpl. lia.
  - pose proof (get_route_data_way self pc) as W.
    destruct (get_route_data self pc) as [data self1]. simpl in W.
    apply way_counts in W as (_ & extra & A & _ & L & _).
    specialize (IH self1).
    destruct (get_route_data_each self1 later) as [datas self2]. simpl in *.
    rewrite A, length_app in IH. lia.
Qed.

(** Data a call returns is in the cache afterwards, under the key. *)
Lemma returned_data_cached (r r1 : Router.NodalRouter) (pc : string) (info : RouteInfo) :
  get_route_data r (Some pc) = (Some info, r1) ->
  route_cache r1 !! pc_key_of pc = Some info.
Proof.
  intros Hcall.
  pose proof (get_route_data_way r (Some pc)) as W. rewrite Hcall in W. simpl in W.
  inversion W as [ | s cached E _ Hc | | s ri E _ _ _ _ | ]; subst; injection E as <-.
  - exact Hc.
  - simpl. apply lookup_insert_eq.
Qed.

Lemma run_cache_stays (r : Router.NodalRouter) (postcodes : list (option string))
    (key : string) (info : RouteInfo) :
  route_cache r !! key = Some info ->
  route_cache (snd (get_route_data_each r postcodes)) !! key = Some info.
Proof.
  intros H.
  destruct (run_relates cache_kept cache_kept_refl cache_kept_trans cache_kept_step
              postcodes r) as (S & _).
  eapply lookup_weaken; eassumption.
Qed.

(** What the map of the loop holds was there before or is in the cache
    of the router afterwards, under the key of the postcode. *)
Lemma fetch_all_map (pcs : list string) (r : Router.NodalRouter)
    (route_map : gmap string RouteInfo) (pc : string) (info : RouteInfo) :
  snd (fetch_all r route_map pcs) !! pc = Some info ->
  route_map !! pc = Some info
  \/ (In pc pcs
      /\ route_cache (fst (fetch_all r route_map pcs)) !! pc_key_of pc = Some info).
Proof.
  revert r route_map. induction pcs as [|q later IH]; intros r route_map;
    cbn [fetch_all].
  - now left.
  - destruct (get_route_data r (Some q)) as [[info0|] r1] eqn:Hcall.
    + intros H. destruct (IH _ _ H) as [Hm | [Hin Hc]].
      * destruct (decide (q = pc)) as [-> | Hne].
        -- rewrite lookup_insert_eq in Hm. injection Hm as ->. right.
           split; [now left|].
           rewrite fetch_all_run. apply run_cache_stays.
           now apply (returned_data_cached r).
        -- rewrite lookup_insert_ne in Hm by exact Hne. now left.
      * right. split; [now right | exact Hc].
    + intros H. destruct (IH _ _ H) as [Hm | [Hin Hc]].
      * now left.
      * right. split; [now right | exact Hc].
Qed.

Lemma prefix_empty (s : string) : String.prefix EmptyString s = true.
Proof. now destruct s. Qed.

Lemma prefix_same_head (a : ascii) (s1 s2 : string) :
  String.prefix (String a s1) (String a s2) = String.prefix s1 s2.
Proof. simpl. destruct (Ascii.ascii_dec a a); [reflexivity | congruence]. Qed.

Lemma region_code_prefix (pc code : string) :
  region_code_of pc = Some code -> String.prefix code pc = true.
Proof.
  destruct pc as [|a [|b rest]]; cbn [region_code_of]; try discriminate.
  - destruct (is_capital a); [|discriminate]. intros [= <-].
    now rewrite prefix_same_head.
  - destruct (is_capital a); [|discriminate].
    destruct (is_capital b); intros [= <-];
      rewrite ?prefix_same_head; apply prefix_empty.
Qed.

Lemma in_region_postcode (region_prefix : string) (o : Order) :
  in_region region_prefix o = true ->
  exists pc, postcode o = Some pc
             /\ region_code_of pc = Some region_prefix
             /\ String.prefix region_prefix pc = true.
Proof.
  unfold in_region. destruct (postcode o) as [pc|]; [|discriminate].
  destruct (region_code_of pc) as [code|] eqn:E; [|discriminate].
  intros H. apply String.eqb_eq in H as ->.
  exists pc. split; [reflexivity|]. split; [exact E|]. now apply region_code_prefix.
Qed.

Lemma execute_pool (K : SortKind) (self : NodalCore) (region_prefix : string)
    (api_limit : nat) :
  pool_for_analysis self = None ->
  execute_regional_analysis self region_prefix api_limit = (Raised OtherError, self).
Proof.
  unfold pool_for_analysis, execute_regional_analysis.
  destruct (all_data_cached self) as [pool|] eqn:E; [discriminate|].
  intros H. rewrite H. f_equal.
  unfold scan_pool in *. destruct (manifest self); [discriminate H | reflexivity].
Qed.

(** The analysis after the pool is known: the router it is left with is
    the one the loop over the postcodes of the region leaves, and the
    frame is what the selector makes of the routed rows. *)
Lemma execute_with_pool (K : SortKind) (self : NodalCore) (region_prefix : string)
    (api_limit : nat) (pool : list Order) :
  pool_for_analysis self = Some pool ->
  let regional_df := List.filter (in_region region_prefix) pool in
  let unique_pcs := take api_limit (unique [] (postcodes regional_df)) in
  let fetched := fetch_all (router self) ∅ unique_pcs in
  let df_ready := omap (routed (snd fetched)) regional_df in
  (regional_df = [] ->
   fst (execute_regional_analysis self region_prefix api_limit)
   = Returned (None, DAILY_POOL_LIMIT self)
   /\ router (snd (execute_regional_analysis self region_prefix api_limit)) = router self)
  /\ (regional_df <> [] ->
      router (snd (execute_regional_analysis self region_prefix api_limit)) = fst fetched
      /\ exists result,
           fst (execute_regional_analysis self region_prefix api_limit)
           = Returned (Some result, DAILY_POOL_LIMIT self)
           /\ Forall (fun sr : SelectedRow => In (row sr) df_ready) result).
Proof.
  intros Hpool. cbv zeta.
  unfold pool_for_analysis, execute_regional_analysis in *.
  set (self1 := match all_data_cached self with
                | Some _ => self
                | None => scan_pool self
                end).
  assert (H1 : all_data_cached self1 = Some pool
               /\ router self1 = router self
               /\ optimizer self1 = optimizer self
               /\ DAILY_POOL_LIMIT self1 = DAILY_POOL_LIMIT self).
  { subst self1. destruct (all_data_cached self) eqn:E.
    - injection Hpool as ->. now rewrite E.
    - split; [exact Hpool|]. unfold scan_pool. now destruct (manifest self). }
  destruct H1 as (Hp & Hr & Ho & Hl). rewrite Hp, Hr, Hl.
  destruct (List.filter (in_region region_prefix) pool) as [|o regional] eqn:Ereg.
  - split; [intros _; simpl; now split | congruence].
  - split; [discriminate|]. intros _.
    destruct (fetch_all (router self) ∅ (take api_limit (unique [] (postcodes (o :: regional)))))
      as [r1 route_map] eqn:Ef.
    cbn [fst snd].
    destruct (omap (routed route_map) (o :: regional)) as [|d df_ready] eqn:Ed.
    + simpl. split; [reflexivity|]. exists []. split; [now rewrite Hl | constructor].
    + cbn [fst snd set_router router optimizer DAILY_POOL_LIMIT].
      split; [reflexivity|].
      destruct (select_returns (optimizer self1) (Some (d :: df_ready)))
        as (result & Hsel & Hres).
      rewrite Hsel. simpl. exists result. split; [now rewrite Hl|].
      destruct Hres as [-> | (r & rest & Hdf & _ & Hrows)]; [constructor|].
      injection Hdf as <- <-.
      apply List.Forall_forall. intros sr Hsr.
      change (In (row sr) (d :: df_ready)).
      apply (admitted_in_frame (optimizer self1)). rewrite <- Hrows. now apply in_map.
Qed.





(** One analysis asks the backend at most [api_limit] times, and never
    beyond what is left of the daily quota. *)
Theorem analysis_backend_calls_bounded (K : SortKind) (self : NodalCore)
    (region_prefix : string) (api_limit : nat) :
  let after := router (snd (execute_regional_analysis self region_prefix api_limit)) in
  (backend_calls (router self) after <= api_limit)%nat
  /\ (backend_calls (router self) after
      <= MAX_DAILY_LIMIT (router self) - daily_request_count (router self))%nat.
Proof.
  cbv zeta.
  assert (Hsame : forall r : Router.NodalRouter, backend_calls r r = 0%nat)
    by (intros r; unfold backend_calls; lia).
  destruct (pool_for_analysis self) as [pool|] eqn:Hpool.
  - destruct (execute_with_pool K self region_prefix api_limit pool Hpool) as (Hempty & Hrows).
    destruct (List.filter (in_region region_prefix) pool) as [|o regional] eqn:Ereg.
    + destruct (Hempty eq_refl) as [_ ->]. rewrite Hsame. lia.
    + destruct Hrows as (-> & _); [discriminate|].
      rewrite fetch_all_run. split.
      * etransitivity; [apply run_calls_at_most_calls|].
        rewrite length_map, length_take. lia.
      * destruct (get_route_data_each_counts
                    (map Some (take api_limit (unique [] (postcodes (o :: regional)))))
                    (router self)) as (_ & extra & A & C & Q).
        unfold backend_calls. rewrite A, length_app.
        destruct Q as [-> | Q]; simpl; lia.
  - rewrite (execute_pool K self _ _ Hpool). simpl. rewrite Hsame. lia.
Qed.

Lemma routed_inv (route_map : gmap string RouteInfo) (o : Order) (r : RoutedOrder) :
  routed route_map o = Some r ->
  order r = o
  /\ exists pc, postcode o = Some pc
                /\ route_map !! pc
                   = Some {| Router.distance_miles := Optimizer.distance_miles r;
                             Router.duration_min := Optimizer.duration_min r |}.
Proof.
  unfold routed. destruct (postcode o) as [pc|] eqn:Ep; [|discriminate].
  destruct (route_map !! pc) as [[dist dur]|] eqn:Em; [|discriminate].
  intros [= <-]. split; [reflexivity|]. exists pc. now split.
Qed.

(** Every order the analysis returns is an order of the pool, in the
    region asked for (its postcode begins with the region's letters), and
    it carries the route data the router holds for its postcode: the
    distance and the duration in the returned row are those cached under
    the postcode's key in the router the analysis leaves. *)
Theorem analysis_rows_routed (K : SortKind) (self : NodalCore)
    (region_prefix : string) (api_limit : nat) (rows : list SelectedRow) (n : nat) :
  fst (execute_regional_analysis self region_prefix api_limit) = Returned (Some rows, n) ->
  exists pool,
    pool_for_analysis self = Some pool
    /\ Forall (fun sr : SelectedRow =>
                 In (order sr) pool
                 /\ exists pc,
                      postcode sr = Some pc
                      /\ region_code_of pc = Some region_prefix
                      /\ String.prefix region_prefix pc = true
                      /\ route_cache
                           (router (snd (execute_regional_analysis self region_prefix
                                           api_limit)))
                           !! pc_key_of pc
                         = Some {| Router.distance_miles := Optimizer.distance_miles sr;
                                   Router.duration_min := Optimizer.duration_min sr |})
         rows.
Proof.
  intros Hret.
  destruct (pool_for_analysis self) as [pool|] eqn:Hpool;
    [|rewrite (execute_pool K self _ _ Hpool) in Hret; discriminate Hret].
  exists pool. split; [reflexivity|].
  destruct (execute_with_pool K self region_prefix api_limit pool Hpool) as (Hempty & Hrows).
  destruct (List.filter (in_region region_prefix) pool) as [|o regional] eqn:Ereg.
  { destruct (Hempty eq_refl) as [Hnone _]. rewrite Hnone in Hret. discriminate Hret. }
  destruct Hrows as (Hrouter & result & Hres & Hin); [discriminate|].
  rewrite Hres in Hret. injection Hret as <- _. rewrite Hrouter.
  eapply List.Forall_impl; [|exact Hin].
  intros sr Hsr. cbv beta in Hsr.
  apply list_elem_of_In, list_elem_of_omap in Hsr as (o' & Ho' & Hrouted).
  apply list_elem_of_In in Ho'. rewrite <- Ereg in Ho'.
  apply List.filter_In in Ho' as [Hpool' Hreg].
  apply routed_inv in Hrouted as (Hord & pc & Hpc & Hmap).
  split; [change (In (order (row sr)) pool); now rewrite Hord|].
  apply in_region_postcode in Hreg as (pc' & Hpc' & Hcode & Hprefix).
  assert (pc' = pc) as -> by congruence.
  exists pc. split; [change (postcode (order (row sr)) = Some pc); now rewrite Hord|].
  split; [exact Hcode|]. split; [exact Hprefix|].
  apply fetch_all_map in Hmap as [Hm | [_ Hc]]; [now rewrite lookup_empty in Hm|].
  exact Hc.
Qed.

Lemma analysis_rows_routed_witness :
  exists pool,
    pool_for_analysis (small_core backend_up) = Some pool
    /\ Forall (fun sr : SelectedRow => In (order sr) pool)
         [ {| row := {| order := order parcel_a;
                        Optimizer.distance_miles := 1000 # 100;
                        Optimizer.duration_min := 3000 # 100 |};
              final_route_miles := 2240 # 100 |};
           {| row := {| order := order parcel_b;
                        Optimizer.distance_miles := 1000 # 100;
                        Optimizer.duration_min := 3000 # 100 |};
              final_route_miles := 2240 # 100 |} ].
Proof.
  destruct (analysis_rows_routed stable_kind (small_core backend_up) "NW" 150
              [ {| row := {| order := order parcel_a;
                             Optimizer.distance_miles := 1000 # 100;
                             Optimizer.duration_min := 3000 # 100 |};
                   final_route_miles := 2240 # 100 |};
                {| row := {| order := order parcel_b;
                             Optimizer.distance_miles := 1000 # 100;
                             Optimizer.duration_min := 3000 # 100 |};
                   final_route_miles := 2240 # 100 |} ] 400)
    as (pool & Hpool & Hrows).
  - vm_compute. reflexivity.
  - exists pool. split; [exact Hpool|].
    eapply List.Forall_impl; [|exact Hrows]. now intros sr [Hin _].
Defined.

End Pipeline.

(** ** The report *)

Section Reporting.
Import Optimizer Main Kinds Examples.



(** Ninety-two stops are always too many for one shift: for candidates
    at non-negative distances, a frame returned by the selector with 92
    rows or more is reported with the warning on driving hours (the
    estimate is then above 9 hours, at 25 miles an hour and 3 minutes a
    stop). *)
Theorem many_stops_warn (K : SortKind) (self : NodalOptimizer)
    (df : list RoutedOrder) (result : list SelectedRow) :
  Forall (fun o : RoutedOrder => 0 <= distance_miles o) df ->
  select_best_regional_orders self (Some df) = Returned result ->
  (92 <= length result)%nat ->
  exists figures,
    report self (Some result) = Some figures
    /\ 9 < est_drive_time_hours figures
    /\ hours_warning figures = true.
Proof.
  intros Hd Hsel Hlen.
  destruct result as [|first_row others]; [simpl in Hlen; lia|].
  destruct df as [|r rest]; [discriminate Hsel|].
  rewrite select_frame in Hsel.
  set (adm := admitted self (r :: rest)) in *.
  set (miles := calculate_human_route_miles self (max_distance r rest) (length adm)) in *.
  destruct (gt _ _) eqn:G; [discriminate Hsel|].
  injection Hsel as Hres.
  assert (Hmiles : final_route_miles first_row = miles).
  { pose proof (with_final_route_miles_column miles adm) as Hcol.
    rewrite Hres in Hcol. now apply Forall_inv in Hcol. }
  assert (Hn : length (first_row :: others) = length adm).
  { rewrite <- Hres. apply with_final_route_miles_length. }
  eexists. split; [reflexivity|].
  cbn [est_drive_time_hours hours_warning].
  assert (Hhours : 9 < final_route_miles first_row / 25
                       + inject_Z (Z.of_nat (length (first_row :: others))) * (5 # 100)).
  { rewrite Hmiles, Hn. rewrite Hn in Hlen.
    destruct (round2_near (max_distance r rest * 2
                           + inject_Z (Z.of_nat (length adm)) * (12 # 10))) as [_ Hup].
    fold (calculate_human_route_miles self (max_distance r rest) (length adm)) in Hup.
    fold miles in Hup.
    pose proof (max_from_ge_start (map distance_miles rest) (distance_miles r)) as Hmax.
    fold (max_distance r rest) in Hmax.
    apply Forall_inv in Hd.
    pose proof (stops_le 92 (length adm) Hlen) as Hs.
    change (inject_Z (Z.of_nat 92)) with 92 in Hs.
    unfold Qdiv. change (/ 25) with (1 # 25).
    set (n := inject_Z (Z.of_nat (length adm))) in *.
    set (a := max_distance r rest) in *. lra. }
  split; [exact Hhours|]. now apply gt_true_lt.
Qed.

Lemma many_stops_warn_witness :
  exists figures,
    report (init_body 12 1500)
      (Some (with_final_route_miles (14040 # 100) (repeat small_parcel 92)))
    = Some figures
    /\ hours_warning figures = true.
Proof.
  destruct (many_stops_warn stable_kind (init_body 12 1500) full_round
              (with_final_route_miles (14040 # 100) (repeat small_parcel 92)))
    as (figures & Hrep & _ & Hwarn).
  - unfold full_round. apply List.Forall_forall. intros o Ho.
    apply repeat_spec in Ho as ->. vm_compute. discriminate.
  - vm_compute. reflexivity.
  - rewrite with_final_route_miles_length, repeat_length. lia.
  - exists figures. split; assumption.
Defined.

End Reporting.
